(** * Mocktailverse: the enrichment Lambda of [src/lambda/transform.py]

    A shallow embedding of the cocktail enrichment function and of the
    handler that drives it.

    Modelling choices:
    - Python values (as produced by [json.loads]) are the inductive [val].
      Python floats are modelled by [pyfloat]: a finite value is an exact
      rational; IEEE rounding is not modelled (every float the derivers
      build from small inputs is a multiple of 1/2 or an exact product).
    - Python [str] is a Rocq [string]; each character is read as a
      Latin-1 code point.
    - The record dicts the handler enriches live in a heap of dicts
      ([state]); [enriched = cocktail.copy()] allocates a new heap cell.
      Nested lists and dicts (the ingredients) are immutable values: the
      code never mutates them.
    - Exceptions are the constructors of [exn]; a computation that may
      raise returns a [result]. *)

From Stdlib Require Import String Ascii List ZArith QArith Lqa Bool Lia.
Import ListNotations.
Set Warnings "-register-all".
Open Scope string_scope.
Open Scope nat_scope.

(* ------------------------------------------------------------------ *)
(** ** Exceptions and results *)

Inductive exn :=
| AttributeError
| TypeError
| ValueError
| OverflowError
| ZeroDivisionError
| ClientError
| BotoCoreError    (* a botocore failure that is not a [ClientError]:
                      connection, timeout, parameter validation, ... *)
| InvalidReference. (* a heap location that was never allocated *)

Inductive result (A : Type) : Type :=
| Ok (a : A)
| Exc (e : exn).
Arguments Ok {A} a.
Arguments Exc {A} e.

Definition result_bind {A B} (r : result A) (f : A -> result B) : result B :=
  match r with
  | Ok a => f a
  | Exc e => Exc e
  end.

Notation "'let!' x ':=' c 'in' k" := (result_bind c (fun x => k))
  (at level 200, x name, c at level 100, k at level 200).

Fixpoint map_res {A B} (f : A -> result B) (xs : list A) : result (list B) :=
  match xs with
  | [] => Ok []
  | x :: xs' => let! y := f x in let! ys := map_res f xs' in Ok (y :: ys)
  end.

(* ------------------------------------------------------------------ *)
(** ** Python values *)

Inductive pyfloat :=
| PFin (q : Q)
| PInf (negative : bool)
| PNaN.

Inductive val :=
| VNone
| VBool (b : bool)
| VInt (z : Z)
| VFloat (f : pyfloat)
| VStr (s : string)
| VList (xs : list val)
| VDict (d : list (string * val)).

(** A dict in insertion order; keys are unique. *)
Definition dict := list (string * val).

Fixpoint dict_lookup (k : string) (d : dict) : option val :=
  match d with
  | [] => None
  | (k', v) :: d' => if String.eqb k k' then Some v else dict_lookup k d'
  end.

(** [d.get(k, dflt)] on a dict *)
Definition dget (d : dict) (k : string) (dflt : val) : val :=
  match dict_lookup k d with
  | Some v => v
  | None => dflt
  end.

(** [d[k] = v]: an existing key keeps its position, a new key is appended. *)
Fixpoint dict_set (k : string) (v : val) (d : dict) : dict :=
  match d with
  | [] => [(k, v)]
  | (k', v') :: d' =>
      if String.eqb k k' then (k', v) :: d' else (k', v') :: dict_set k v d'
  end.

(** [x.get(k, dflt)] on an arbitrary value: only dicts have [get]. *)
Definition val_get (x : val) (k : string) (dflt : val) : result val :=
  match x with
  | VDict d => Ok (dget d k dflt)
  | _ => Exc AttributeError
  end.

(* ------------------------------------------------------------------ *)
(** ** Strings *)

(** [str.lower()] on Latin-1 code points *)
Definition lower_char (c : ascii) : ascii :=
  let n := nat_of_ascii c in
  if ((65 <=? n) && (n <=? 90)) || ((192 <=? n) && (n <=? 222) && negb (n =? 215))
  then ascii_of_nat (n + 32) else c.

Fixpoint lower (s : string) : string :=
  match s with
  | EmptyString => EmptyString
  | String c s' => String (lower_char c) (lower s')
  end.

(** [x.lower()] on an arbitrary value: only strings have [lower]. *)
Definition str_lower (x : val) : result string :=
  match x with
  | VStr s => Ok (lower s)
  | _ => Exc AttributeError
  end.

(** [sub in s] *)
Fixpoint str_contains (s sub : string) : bool :=
  String.prefix sub s ||
  match s with
  | EmptyString => false
  | String _ s' => str_contains s' sub
  end.

(** [s.count(c)] for a one-character [c] *)
Fixpoint count_char (c : ascii) (s : string) : nat :=
  match s with
  | EmptyString => 0
  | String c' s' => (if Ascii.eqb c c' then 1 else 0) + count_char c s'
  end.

(** Characters for which [str.isspace()] holds, among Latin-1 code points. *)
Definition is_space (c : ascii) : bool :=
  let n := nat_of_ascii c in
  ((9 <=? n) && (n <=? 13)) || ((28 <=? n) && (n <=? 32)) || (n =? 133) || (n =? 160).

Fixpoint split_count_aux (in_word : bool) (s : string) : nat :=
  match s with
  | EmptyString => 0
  | String c s' =>
      if is_space c then split_count_aux false s'
      else (if in_word then 0 else 1) + split_count_aux true s'
  end.

(** [len(s.split())] *)
Definition split_count (s : string) : nat := split_count_aux false s.

(** [len(x.split())] on an arbitrary value *)
Definition word_count (x : val) : result nat :=
  match x with
  | VStr s => Ok (split_count s)
  | _ => Exc AttributeError
  end.

(** [any(sub in name for sub in subs)] *)
Definition any_in (name : string) (subs : list string) : bool :=
  existsb (fun sub => str_contains name sub) subs.

(* ------------------------------------------------------------------ *)
(** ** Iteration and [len] *)

Definition char_str (c : ascii) : val := VStr (String c EmptyString).

(** [for x in v]: lists yield their items, strings their characters,
    dicts their keys; other values raise [TypeError]. *)
Definition py_iter (v : val) : result (list val) :=
  match v with
  | VList xs => Ok xs
  | VStr s => Ok (map char_str (list_ascii_of_string s))
  | VDict d => Ok (map (fun kv => VStr (fst kv)) d)
  | _ => Exc TypeError
  end.

Definition py_len (v : val) : result nat :=
  let! xs := py_iter v in Ok (length xs).

(** [ingredient.get('name', '').lower()] *)
Definition ing_name (ingredient : val) : result string :=
  let! n := val_get ingredient "name" (VStr "") in str_lower n.

(* ------------------------------------------------------------------ *)
(** ** [float()] and [int()] *)

Definition is_digit (c : ascii) : bool :=
  let n := nat_of_ascii c in (48 <=? n) && (n <=? 57).

Definition digit_val (c : ascii) : Z := Z.of_nat (nat_of_ascii c - 48).

(** The digits after a first digit; an underscore is allowed only between
    two digits. Returns the digits read and the rest of the input. *)
Fixpoint digits_tail (l : list ascii) : list Z * list ascii :=
  match l with
  | [] => ([], [])
  | c :: l' =>
      if is_digit c then
        let (ds, r) := digits_tail l' in (digit_val c :: ds, r)
      else if Ascii.eqb c "_"%char then
        match l' with
        | d :: l'' =>
            if is_digit d then let (ds, r) := digits_tail l'' in (digit_val d :: ds, r)
            else ([], l)
        | [] => ([], l)
        end
      else ([], l)
  end.

(** A (possibly empty) run of digits with underscores *)
Definition digitpart (l : list ascii) : list Z * list ascii :=
  match l with
  | c :: l' => if is_digit c then let (ds, r) := digits_tail l' in (digit_val c :: ds, r)
               else ([], l)
  | [] => ([], [])
  end.

Definition digits_value (ds : list Z) : Z :=
  fold_left (fun acc d => 10 * acc + d)%Z ds 0%Z.

Fixpoint strip_left (l : list ascii) : list ascii :=
  match l with
  | c :: l' => if is_space c then strip_left l' else l
  | [] => []
  end.

Definition strip (l : list ascii) : list ascii :=
  rev (strip_left (rev (strip_left l))).

Definition lower_list (l : list ascii) : list ascii := map lower_char l.

Definition chars (s : string) : list ascii := list_ascii_of_string s.

Definition list_ascii_eqb (a b : list ascii) : bool :=
  String.eqb (string_of_list_ascii a) (string_of_list_ascii b).

(** [10 ^ e] as a rational, for any integer exponent *)
Definition pow10 (e : Z) : Q :=
  if (0 <=? e)%Z then inject_Z (10 ^ e) else 1 # Z.to_pos (10 ^ (- e)).

(** An unsigned decimal literal: digits, optional fraction, optional
    exponent; at least one mantissa digit. *)
Definition parse_unsigned (l : list ascii) : option Q :=
  let (ip, r1) := digitpart l in
  let '(fp, r2) :=
    match r1 with
    | c :: r => if Ascii.eqb c "."%char then digitpart r else ([], r1)
    | [] => ([], [])
    end in
  let has_point := match r1 with c :: _ => Ascii.eqb c "."%char | [] => false end in
  let fp_rest := if has_point then r2 else r1 in
  match (ip ++ fp)%list with
  | [] => None
  | mant =>
      let m := digits_value mant in
      let scale := (- Z.of_nat (length fp))%Z in
      match fp_rest with
      | [] => Some (inject_Z m * pow10 scale)%Q
      | e :: r3 =>
          if Ascii.eqb (lower_char e) "e"%char then
            let '(esign, r4) :=
              match r3 with
              | s :: r => if Ascii.eqb s "-"%char then ((-1)%Z, r)
                          else if Ascii.eqb s "+"%char then (1%Z, r) else (1%Z, r3)
              | [] => (1%Z, [])
              end in
            match digitpart r4 with
            | ([], _) => None
            | (eds, []) => Some (inject_Z m * pow10 (scale + esign * digits_value eds))%Q
            | (_, _ :: _) => None
            end
          else None
      end
  end.

(** [float(s)] for a string [s]: surrounding whitespace, an optional sign,
    then [inf], [infinity], [nan] (any case) or a decimal literal. *)
Definition parse_float (s : string) : option pyfloat :=
  let l := strip (chars s) in
  let '(neg, body) :=
    match l with
    | c :: r => if Ascii.eqb c "-"%char then (true, r)
                else if Ascii.eqb c "+"%char then (false, r) else (false, l)
    | [] => (false, [])
    end in
  let lb := lower_list body in
  if list_ascii_eqb lb (chars "inf") || list_ascii_eqb lb (chars "infinity") then Some (PInf neg)
  else if list_ascii_eqb lb (chars "nan") then Some PNaN
  else match parse_unsigned body with
       | Some q => Some (PFin (if neg then - q else q)%Q)
       | None => None
       end.

(** [float(x)] *)
Definition py_float (x : val) : result pyfloat :=
  match x with
  | VInt z => Ok (PFin (inject_Z z))
  | VBool b => Ok (PFin (if b then 1 else 0)%Q)
  | VFloat f => Ok f
  | VStr s => match parse_float s with Some f => Ok f | None => Exc ValueError end
  | _ => Exc TypeError
  end.

(** [c * f] for a Python int [c] and a float [f] *)
Definition float_mul_int (c : Z) (f : pyfloat) : pyfloat :=
  match f with
  | PFin q => PFin (inject_Z c * q)%Q
  | PInf neg => if (c =? 0)%Z then PNaN else PInf (xorb neg (c <? 0)%Z)
  | PNaN => PNaN
  end.

(** [int(f)]: truncation towards zero *)
Definition py_int (f : pyfloat) : result Z :=
  match f with
  | PFin q => Ok (Z.quot (Qnum q) (Zpos (Qden q)))
  | PInf _ => Exc OverflowError
  | PNaN => Exc ValueError
  end.

(** Python's [min(a, b)]: [b] if [b < a], else [a]. *)
Definition py_min (a b : Q) : Q := if Qle_bool a b then a else b.

(** [a < b] on floats *)
Definition py_lt (a b : Q) : bool := negb (Qle_bool b a).

(* ------------------------------------------------------------------ *)
(** ** Field derivers *)

(** [calculate_complexity_score] *)
Definition specialty_ingredients : list string :=
  ["elderflower"; "orgeat"; "falernum"; "amaro"; "chartreuse"].

Definition fresh_indicators : list string :=
  ["juice"; "mint"; "lemon"; "lime"; "orange"].

(** [for ingredient in ingredients: name = ...; if any(...): score += bonus] *)
Fixpoint add_bonus (subs : list string) (bonus : Q) (xs : list val) (score : Q)
  : result Q :=
  match xs with
  | [] => Ok score
  | ingredient :: xs' =>
      let! name := ing_name ingredient in
      add_bonus subs bonus xs' (if any_in name subs then (score + bonus)%Q else score)
  end.

Definition calculate_complexity_score (ingredients : val) : result Q :=
  let! n := py_len ingredients in
  let score := (0 + py_min (inject_Z (Z.of_nat n) * (1 # 2)) 3)%Q in
  let! xs := py_iter ingredients in
  let! score := add_bonus specialty_ingredients 1%Q xs score in
  let! xs := py_iter ingredients in
  let! score := add_bonus fresh_indicators (1 # 2) xs score in
  Ok (py_min score 10%Q).

(** [estimate_prep_time]; the ingredients are not used. *)
Definition estimate_prep_time (ingredients instructions : val) : result Z :=
  match instructions with
  | VStr s =>
      let base_time := 3%Z in
      let base_time := if str_contains (lower s) "muddle" then (base_time + 2)%Z else base_time in
      let base_time := if str_contains (lower s) "shake" then (base_time + 1)%Z else base_time in
      let steps := Z.of_nat (count_char "."%char s + count_char ";"%char s) in
      let base_time := (base_time + Z.max 0 (steps - 2))%Z in
      Ok (Z.min base_time 15)
  | _ => Exc AttributeError
  end.

(** [identify_spirit_type]: the dict literal [spirit_map], in its order *)
Definition spirit_map : list (string * list string) :=
  [("vodka", ["vodka"; "absolut"; "smirnoff"]);
   ("gin", ["gin"; "hendrick"; "tanqueray"]);
   ("rum", ["rum"; "bacardi"; "havana club"]);
   ("tequila", ["tequila"; "patron"; "reposado"]);
   ("whiskey", ["whiskey"; "bourbon"; "scotch"; "rye"]);
   ("brandy", ["brandy"; "cognac"; "armagnac"])].

(** inner loop: is there an ingredient whose name contains a keyword? *)
Fixpoint scan_ingredients (keywords : list string) (xs : list val) : result bool :=
  match xs with
  | [] => Ok false
  | ingredient :: xs' =>
      let! name := ing_name ingredient in
      if any_in name keywords then Ok true else scan_ingredients keywords xs'
  end.

(** outer loop over the spirit map, with its early [return] *)
Fixpoint scan_spirits (m : list (string * list string)) (ingredients : val)
  : result string :=
  match m with
  | [] => Ok "non-alcoholic"
  | (spirit, keywords) :: m' =>
      let! xs := py_iter ingredients in
      let! found := scan_ingredients keywords xs in
      if found then Ok spirit else scan_spirits m' ingredients
  end.

Definition identify_spirit_type (ingredients : val) : result string :=
  scan_spirits spirit_map ingredients.

(** [estimate_calories]: the dict literal [calorie_map], in its order *)
Definition calorie_map : list (string * Z) :=
  [("rum", 97%Z); ("vodka", 64%Z); ("gin", 70%Z); ("tequila", 69%Z);
   ("whiskey", 70%Z); ("brandy", 65%Z); ("triple sec", 75%Z);
   ("lime juice", 8%Z); ("simple syrup", 53%Z); ("soda", 0%Z)].

(** [for key, calories_per_oz in calorie_map.items(): if key in name: ... break] *)
Fixpoint first_calorie (name : string) (m : list (string * Z)) : option Z :=
  match m with
  | [] => None
  | (key, calories_per_oz) :: m' =>
      if str_contains name key then Some calories_per_oz else first_calorie name m'
  end.

Fixpoint sum_calories (xs : list val) (total_calories : Z) : result Z :=
  match xs with
  | [] => Ok total_calories
  | ingredient :: xs' =>
      let! name := ing_name ingredient in
      let! a := val_get ingredient "amount" (VInt 0) in
      let! amount := py_float a in
      match first_calorie name calorie_map with
      | Some calories_per_oz =>
          let! c := py_int (float_mul_int calories_per_oz amount) in
          sum_calories xs' (total_calories + c)%Z
      | None => sum_calories xs' total_calories
      end
  end.

Definition estimate_calories (ingredients : val) : result Z :=
  let! xs := py_iter ingredients in sum_calories xs 0%Z.

(** [is_alcoholic]: ['rum' in ' '.join([ing.get('name', '').lower() for ing in ingredients])] *)
Definition is_alcoholic (ingredients : val) : result bool :=
  let! xs := py_iter ingredients in
  let! names := map_res ing_name xs in
  Ok (str_contains (String.concat " " names) "rum").

(** [generate_tags].  [list(set(tags))] is a section variable [set_list]:
    Python fixes the order of a set's elements only through hashing, so
    the development holds for every function that returns the distinct
    elements of the tag list in some order. *)
Section Tags.

Variable set_list : list string -> list string.

Definition generate_tags (cocktail : dict) : result (list string) :=
  let tags := @nil string in
  let! category := str_lower (dget cocktail "category" (VStr "")) in
  let tags := if String.eqb category "" then tags else (tags ++ [category])%list in
  let! glass := str_lower (dget cocktail "glass" (VStr "")) in
  let tags := if String.eqb glass "" then tags else (tags ++ [glass])%list in
  let ingredients := dget cocktail "ingredients" (VList []) in
  let! spirit := identify_spirit_type ingredients in
  let tags := if String.eqb spirit "non-alcoholic" then tags else (tags ++ [spirit])%list in
  let! instructions := str_lower (dget cocktail "instructions" (VStr "")) in
  let tags := if str_contains instructions "shake" then (tags ++ ["shaken"])%list else tags in
  let tags := if str_contains instructions "stir" then (tags ++ ["stirred"])%list else tags in
  let tags := if str_contains instructions "muddle" then (tags ++ ["muddled"])%list else tags in
  let! complexity := calculate_complexity_score ingredients in
  let tags :=
    if py_lt complexity 3%Q then (tags ++ ["simple"])%list
    else if py_lt complexity 6%Q then (tags ++ ["intermediate"])%list
    else (tags ++ ["complex"])%list in
  Ok (set_list tags).

End Tags.

(* ------------------------------------------------------------------ *)
(** ** Numeric operators used by the summary *)

Definition float_of_num (x : val) : option pyfloat :=
  match x with
  | VInt z => Some (PFin (inject_Z z))
  | VBool b => Some (PFin (if b then 1 else 0)%Q)
  | VFloat f => Some f
  | _ => None
  end.

Definition float_add (a b : pyfloat) : pyfloat :=
  match a, b with
  | PFin x, PFin y => PFin (x + y)%Q
  | PNaN, _ | _, PNaN => PNaN
  | PInf s, PInf t => if Bool.eqb s t then PInf s else PNaN
  | PInf s, _ | _, PInf s => PInf s
  end.

(** [x + y] on numbers: int plus int is an int, otherwise a float. *)
Definition py_add (x y : val) : result val :=
  match x, y with
  | VInt a, VInt b => Ok (VInt (a + b))
  | VInt a, VBool b | VBool b, VInt a => Ok (VInt (a + if b then 1 else 0))
  | VBool a, VBool b => Ok (VInt ((if a then 1 else 0) + if b then 1 else 0)%Z)
  | _, _ =>
      match float_of_num x, float_of_num y with
      | Some a, Some b => Ok (VFloat (float_add a b))
      | _, _ => Exc TypeError
      end
  end.

(** [sum(xs)], starting from the int [0] *)
Definition py_sum (xs : list val) : result val :=
  fold_left (fun acc x => let! a := acc in py_add a x) xs (Ok (VInt 0)).

(** [x / y]: true division; a zero divisor raises [ZeroDivisionError]. *)
Definition py_truediv (x y : val) : result val :=
  match float_of_num x, float_of_num y with
  | Some a, Some b =>
      match a, b with
      | _, PFin q => if Qeq_bool q 0 then Exc ZeroDivisionError else
          match a with
          | PFin p => Ok (VFloat (PFin (p / q)))
          | PInf s => Ok (VFloat (PInf (xorb s (Qle_bool q 0))))
          | PNaN => Ok (VFloat PNaN)
          end
      | PFin _, PInf _ => Ok (VFloat (PFin 0))
      | _, _ => Ok (VFloat PNaN)
      end
  | _, _ => Exc TypeError
  end.

(* ------------------------------------------------------------------ *)
(** ** The heap of record dicts and the state and exception monad *)

(** A heap location *)
Definition loc := nat.

Record state := mkstate {
  heap : list dict;                          (* the record dicts *)
  ticks : nat;                               (* clock readings so far *)
  s3_log : list (string * string * list dict); (* S3 objects written *)
  ddb_log : list dict                        (* DynamoDB items written *)
}.

(** The world outside the process: the clock, S3 and DynamoDB. *)
Record env := mkenv {
  clock_iso : nat -> string;       (* [datetime.now().isoformat()] at a tick *)
  clock_ymd : nat -> string;       (* [datetime.now().strftime('%Y/%m/%d')] *)
  s3_objects : string -> string -> option val; (* parsed JSON of an object *)
  s3_put_ok : string -> string -> bool;        (* [put_object] succeeds *)
  ddb_put_error : option exn                   (* [None]: [put_item] succeeds;
                                                  [Some e]: it raises [e] *)
}.

Definition M (A : Type) : Type := state -> state * result A.

Definition m_ret {A} (a : A) : M A := fun st => (st, Ok a).

Definition m_bind {A B} (c : M A) (f : A -> M B) : M B :=
  fun st => match c st with
            | (st', Ok a) => f a st'
            | (st', Exc e) => (st', Exc e)
            end.

Notation "x <- c ;; k" := (m_bind c (fun x => k))
  (at level 61, c at next level, right associativity).
Notation "c ;; k" := (m_bind c (fun _ => k))
  (at level 61, right associativity).

Definition raise {A} (e : exn) : M A := fun st => (st, Exc e).

Definition lift {A} (r : result A) : M A := fun st => (st, r).

Fixpoint heap_set (h : list dict) (l : loc) (d : dict) : list dict :=
  match h, l with
  | [], _ => []
  | _ :: h', O => d :: h'
  | d' :: h', S l' => d' :: heap_set h' l' d
  end.

Definition set_heap (st : state) (h : list dict) : state :=
  mkstate h (ticks st) (s3_log st) (ddb_log st).

Definition load (l : loc) : M dict :=
  fun st => match nth_error (heap st) l with
            | Some d => (st, Ok d)
            | None => (st, Exc InvalidReference)
            end.

(** a new dict object with the given items *)
Definition alloc (d : dict) : M loc :=
  fun st => (set_heap st (heap st ++ [d]), Ok (length (heap st))).

(** [obj[k] = v] *)
Definition setitem (l : loc) (k : string) (v : val) : M unit :=
  fun st => match nth_error (heap st) l with
            | Some d => (set_heap st (heap_set (heap st) l (dict_set k v d)), Ok tt)
            | None => (st, Exc InvalidReference)
            end.

(** [obj.get(k, dflt)] *)
Definition getitem (l : loc) (k : string) (dflt : val) : M val :=
  d <- load l ;; m_ret (dget d k dflt).

Fixpoint mapM {A B} (f : A -> M B) (xs : list A) : M (list B) :=
  match xs with
  | [] => m_ret []
  | x :: xs' => y <- f x ;; ys <- mapM f xs' ;; m_ret (y :: ys)
  end.

Section Lambda.

Variable E : env.
Variable set_list : list string -> list string.

Definition tick (st : state) : state :=
  mkstate (heap st) (S (ticks st)) (s3_log st) (ddb_log st).

(** [datetime.now().isoformat()] *)
Definition now_iso : M string := fun st => (tick st, Ok (clock_iso E (ticks st))).

(** [datetime.now().strftime('%Y/%m/%d')] *)
Definition now_ymd : M string := fun st => (tick st, Ok (clock_ymd E (ticks st))).

(** [enrich_single_cocktail] *)
Definition enrich_single_cocktail (cocktail : loc) : M loc :=
  d <- load cocktail ;;
  enriched <- alloc d ;;
  now <- now_iso ;;
  setitem enriched "enriched_at" (VStr now) ;;
  ingredients <- getitem enriched "ingredients" (VList []) ;;
  n <- lift (py_len ingredients) ;;
  setitem enriched "ingredient_count" (VInt (Z.of_nat n)) ;;
  c <- lift (calculate_complexity_score ingredients) ;;
  setitem enriched "complexity_score" (VFloat (PFin c)) ;;
  instructions <- getitem enriched "instructions" (VStr "") ;;
  w <- lift (word_count instructions) ;;
  setitem enriched "instruction_word_count" (VInt (Z.of_nat w)) ;;
  p <- lift (estimate_prep_time ingredients instructions) ;;
  setitem enriched "estimated_prep_time" (VInt p) ;;
  a <- lift (is_alcoholic ingredients) ;;
  setitem enriched "is_alcoholic" (VBool a) ;;
  s <- lift (identify_spirit_type ingredients) ;;
  setitem enriched "spirit_type" (VStr s) ;;
  cal <- lift (estimate_calories ingredients) ;;
  setitem enriched "estimated_calories" (VInt cal) ;;
  src <- load cocktail ;;
  tags <- lift (generate_tags set_list src) ;;
  setitem enriched "tags" (VList (map VStr tags)) ;;
  m_ret enriched.

(** ** The batch and the handler *)

(** An element of the parsed JSON list: dicts are heap objects. *)
Inductive item :=
| IRef (l : loc)
| IVal (v : val).

Definition materialize (v : val) : M item :=
  match v with
  | VDict d => l <- alloc d ;; m_ret (IRef l)
  | _ => m_ret (IVal v)
  end.

(** [read_from_s3]: a missing object raises [ClientError]; a JSON root
    that is not a list is wrapped in a one-element list. *)
Definition read_from_s3 (bucket key : string) : M (list item) :=
  match s3_objects E bucket key with
  | None => raise ClientError
  | Some data =>
      mapM materialize (match data with VList xs => xs | _ => [data] end)
  end.

(** One loop iteration of [enrich_cocktail_data]: a dict is enriched; a
    list survives [.copy()] and fails at the first item assignment; any
    other value has no [copy] method. *)
Definition enrich_item (it : item) : M loc :=
  match it with
  | IRef l => enrich_single_cocktail l
  | IVal (VList _) => now_iso ;; raise TypeError
  | IVal _ => raise AttributeError
  end.

(** [enrich_cocktail_data] *)
Definition enrich_cocktail_data (input_bucket date_partition : string) : M (list loc) :=
  let input_key := "transformed/" ++ date_partition ++ "/transformed_cocktail_data.json" in
  cocktail_data <- read_from_s3 input_bucket input_key ;;
  mapM enrich_item cocktail_data.

(** [write_to_s3]: [json.dumps(..., default=str)] always succeeds on
    these values; a failed [put_object] raises.  Nothing on the way out
    catches it, so it is written as [ClientError] whatever botocore
    raises. *)
Definition write_to_s3 (data : list loc) (bucket key : string) : M unit :=
  ds <- mapM load data ;;
  fun st =>
    if s3_put_ok E bucket key
    then (mkstate (heap st) (ticks st) (s3_log st ++ [(bucket, key, ds)]) (ddb_log st), Ok tt)
    else (st, Exc ClientError).

(** [dynamodb_client.put_item(...)] *)
Definition put_item (item : dict) : M unit :=
  fun st =>
    match ddb_put_error E with
    | None => (mkstate (heap st) (ticks st) (s3_log st) (ddb_log st ++ [item]), Ok tt)
    | Some e => (st, Exc e)
    end.

(** [try: body except ClientError: logger.warning(...)] *)
Definition catch_client_error (body : M unit) : M unit :=
  fun st => match body st with
            | (st', Exc ClientError) => (st', Ok tt)
            | r => r
            end.

(** [write_processing_summary].  The DynamoDB attribute values are kept
    as values rather than as their [str()]. *)
Definition write_processing_summary (data : list loc) (date_partition : string) : M unit :=
  catch_client_error (
    processed_at <- now_iso ;;
    cs <- mapM load data ;;
    total_ingredients <- lift (py_sum (map (fun c => dget c "ingredient_count" (VInt 0)) cs)) ;;
    cs <- mapM load data ;;
    total_complexity <- lift (py_sum (map (fun c => dget c "complexity_score" (VInt 0)) cs)) ;;
    avg_complexity <- lift (py_truediv total_complexity (VInt (Z.of_nat (length data)))) ;;
    put_item [("date_partition", VStr date_partition);
              ("processed_at", VStr processed_at);
              ("record_count", VInt (Z.of_nat (length data)));
              ("total_ingredients", total_ingredients);
              ("avg_complexity", avg_complexity)]).

(** The Lambda event: its three optional string fields. *)
Record event := mkevent {
  ev_input_bucket : option string;
  ev_output_bucket : option string;
  ev_date_partition : option string
}.

(** The response; its [body] is [json.dumps] of the last three fields. *)
Record response := mkresponse {
  status_code : Z;
  message : string;
  records_processed : nat;
  output_location : string
}.

Definition get_or (o : option string) (dflt : string) : string :=
  match o with Some s => s | None => dflt end.

(** [lambda_handler]; its [except Exception: ... raise] re-raises, so
    every exception leaves the handler unchanged. *)
Definition lambda_handler (ev : event) : M response :=
  let input_bucket := get_or (ev_input_bucket ev) "mocktailverse-processed-data" in
  let output_bucket := get_or (ev_output_bucket ev) "mocktailverse-processed-data" in
  today <- now_ymd ;;
  let date_partition := get_or (ev_date_partition ev) today in
  enriched_data <- enrich_cocktail_data input_bucket date_partition ;;
  let output_key := "enriched/" ++ date_partition ++ "/enriched_cocktail_data.json" in
  write_to_s3 enriched_data output_bucket output_key ;;
  write_processing_summary enriched_data date_partition ;;
  m_ret (mkresponse 200 "Data enrichment completed successfully"
           (length enriched_data)
           ("s3://" ++ output_bucket ++ "/" ++ output_key)).

End Lambda.

(* ------------------------------------------------------------------ *)
(** ** The enrichment as a pure function of the source dict *)

Section Derived.

Variable set_list : list string -> list string.

(** The derived fields after [enriched_at], in the order the code sets them. *)
Definition derive_fields (d : dict) : result (list (string * val)) :=
  let ingredients := dget d "ingredients" (VList []) in
  let! n := py_len ingredients in
  let! c := calculate_complexity_score ingredients in
  let instructions := dget d "instructions" (VStr "") in
  let! w := word_count instructions in
  let! p := estimate_prep_time ingredients instructions in
  let! a := is_alcoholic ingredients in
  let! s := identify_spirit_type ingredients in
  let! cal := estimate_calories ingredients in
  let! tags := generate_tags set_list d in
  Ok [("ingredient_count", VInt (Z.of_nat n));
      ("complexity_score", VFloat (PFin c));
      ("instruction_word_count", VInt (Z.of_nat w));
      ("estimated_prep_time", VInt p);
      ("is_alcoholic", VBool a);
      ("spirit_type", VStr s);
      ("estimated_calories", VInt cal);
      ("tags", VList (map VStr tags))].

Definition set_all (fs : list (string * val)) (d : dict) : dict :=
  fold_left (fun acc kv => dict_set (fst kv) (snd kv) acc) fs d.

Definition enriched_dict (now : string) (d : dict) (fs : list (string * val)) : dict :=
  set_all fs (dict_set "enriched_at" (VStr now) d).

End Derived.

(** ** Statements' vocabulary *)

(** The four fields of a record the derivers read *)
Definition base_keys : list string := ["ingredients"; "instructions"; "category"; "glass"].

(** The fields the enrichment attaches, timestamp first *)
Definition derived_keys : list string :=
  ["enriched_at"; "ingredient_count"; "complexity_score"; "instruction_word_count";
   "estimated_prep_time"; "is_alcoholic"; "spirit_type"; "estimated_calories"; "tags"].

Definition derived_value_keys : list string := tl derived_keys.

Definition agree_on (ks : list string) (d1 d2 : dict) : Prop :=
  forall k, In k ks -> dict_lookup k d1 = dict_lookup k d2.


(** One admissible [list(set(tags))]: each distinct tag once, at its last
    occurrence. *)
Fixpoint set_list_last (l : list string) : list string :=
  match l with
  | [] => []
  | x :: l' => if existsb (String.eqb x) l' then set_list_last l' else x :: set_list_last l'
  end.

(** What [list(set(tags))] guarantees: no duplicates, same elements. *)
Definition set_list_ok (sl : list string -> list string) : Prop :=
  forall l, NoDup (sl l) /\ forall x, In x (sl l) <-> In x l.

(** The complexity tag the spec names for a score *)
Definition complexity_tag (c : Q) : string :=
  if py_lt c 3%Q then "simple" else if py_lt c 6%Q then "intermediate" else "complex".

Definition complexity_tags : list string := ["simple"; "intermediate"; "complex"].

(** The spirit-type rule in the spec's words: the first spirit of the
    fixed map for which some ingredient name contains one of its keywords. *)
Definition spirit_type_spec (names : list string) : string :=
  match find (fun entry => existsb (fun name => any_in name (snd entry)) names) spirit_map with
  | Some (spirit, _) => spirit
  | None => "non-alcoholic"
  end.

(** [float(ingredient.get('amount', 0))] *)
Definition ingredient_amount (ingredient : val) : result pyfloat :=
  let! a := val_get ingredient "amount" (VInt 0) in py_float a.

(** The derived fields (timestamp excluded) of an enrichment's outcome *)
Definition derived_view (outcome : state * result loc) : result (list (option val)) :=
  let (st', r) := outcome in
  match r with
  | Ok l' =>
      match nth_error (heap st') l' with
      | Some d' => Ok (map (fun k => dict_lookup k d') derived_value_keys)
      | None => Exc InvalidReference
      end
  | Exc e => Exc e
  end.

(** A field of the enriched record, read after a successful enrichment *)
Definition enriched_field (outcome : state * result loc) (k : string) : option val :=
  let (st', r) := outcome in
  match r with
  | Ok l' => match nth_error (heap st') l' with Some d' => dict_lookup k d' | None => None end
  | Exc _ => None
  end.

(** Every tag [generate_tags] can add besides the category and the glass *)
Definition tag_vocabulary : list string :=
  ["vodka"; "gin"; "rum"; "tequila"; "whiskey"; "brandy";
   "shaken"; "stirred"; "muddled"; "simple"; "intermediate"; "complex"].

(** A computation that writes neither to S3 nor to DynamoDB *)
Definition keeps_logs {A} (m : M A) : Prop :=
  forall st, s3_log (fst (m st)) = s3_log st /\ ddb_log (fst (m st)) = ddb_log st.

(** The records of a parsed input object, as [read_from_s3] lists them *)
Definition input_records (data : val) : list val :=
  match data with VList xs => xs | _ => [data] end.

(** The same world with another outcome of the DynamoDB write *)
Definition with_ddb (E : env) (o : option exn) : env :=
  mkenv (clock_iso E) (clock_ymd E) (s3_objects E) (s3_put_ok E) o.

(** The outcomes of [put_item] that [except ClientError] absorbs *)
Definition put_outcome_swallowed (o : option exn) : Prop :=
  o = None \/ o = Some ClientError.

(** A computation that only appends to the heap *)
Definition heap_grows {A} (m : M A) : Prop :=
  forall st, exists ext, heap (fst (m st)) = (heap st ++ ext)%list.

(** The record one enrichment step produces *)
Definition enriched_at_some (E : env) (sl : list string -> list string) (h : list dict)
  (it : item) (l' : loc) : Prop :=
  exists l d fs n,
    it = IRef l /\ nth_error h l = Some d /\ derive_fields sl d = Ok fs /\
    nth_error h l' = Some (enriched_dict (clock_iso E n) d fs).

(** A heap location holding a dict whose two summed fields are numbers *)
Definition summary_ready (h : list dict) (l : loc) : Prop :=
  exists c, nth_error h l = Some c /\
    float_of_num (dget c "ingredient_count" (VInt 0)) <> None /\
    float_of_num (dget c "complexity_score" (VInt 0)) <> None.

(** A batch element that is a heap dict whose derived fields all compute *)
Definition enrichable (sl : list string -> list string) (h : list dict) (it : item) : Prop :=
  exists l d fs, it = IRef l /\ nth_error h l = Some d /\ derive_fields sl d = Ok fs.

(** ** Sample inputs *)

(** An environment in which the clock reads a fixed instant, S3 holds one
    input object for the partition [2024/01/01] and every write succeeds. *)
Definition sample_env (input : val) : env :=
  mkenv (fun _ => "2024-01-01T00:00:00") (fun _ => "2024/01/01")
        (fun bucket key =>
           if String.eqb key "transformed/2024/01/01/transformed_cocktail_data.json"
           then Some input else None)
        (fun _ _ => true) None.

Definition sample_event : event := mkevent None None (Some "2024/01/01").

Definition empty_state : state := mkstate [] 0 [] [].

Definition ingredient (name : string) (amount : val) : val :=
  VDict [("name", VStr name); ("amount", amount)].

(** The recipe of the spec's worked scenario *)
Definition daiquiri : dict :=
  [("ingredients",
    VList [ingredient "Light Rum" (VInt 2); ingredient "Lime Juice" (VInt 1);
           ingredient "Simple Syrup" (VFloat (PFin (3 # 4)))]);
   ("instructions", VStr "Shake all ingredients with ice. Strain into glass.")].

(** A record with none of the four base fields *)
Definition nameless_record : dict := [("name", VStr "Mystery"); ("id", VInt 7)].

(** The daiquiri with a JSON null category *)
Definition null_category_record : dict := ("category", VNone) :: daiquiri.

(** ** Lemmas on dicts and on the heap *)

Lemma dict_lookup_set_eq k v d : dict_lookup k (dict_set k v d) = Some v.
Proof.
  induction d as [|[k' v'] d IH]; simpl.
  - now rewrite String.eqb_refl.
  - destruct (String.eqb k k') eqn:Hk; simpl; rewrite Hk; auto.
Qed.

Lemma dict_lookup_set_ne k k' v d :
  k' <> k -> dict_lookup k' (dict_set k v d) = dict_lookup k' d.
Proof.
  intros Hne. induction d as [|[k0 v0] d IH]; simpl.
  - apply String.eqb_neq in Hne. now rewrite Hne.
  - destruct (String.eqb k k0) eqn:Hk; simpl.
    + apply String.eqb_eq in Hk; subst k0.
      apply String.eqb_neq in Hne. now rewrite Hne.
    + destruct (String.eqb k' k0); auto.
Qed.

Lemma dget_set_ne k k' v d dflt :
  k' <> k -> dget (dict_set k v d) k' dflt = dget d k' dflt.
Proof. intros H. unfold dget. now rewrite dict_lookup_set_ne. Qed.

Lemma nth_error_app_len {A} (h : list A) (x : A) : nth_error (h ++ [x])%list (length h) = Some x.
Proof. rewrite nth_error_app2 by lia. now rewrite Nat.sub_diag. Qed.

Lemma heap_set_app_len (h : list dict) x y : heap_set (h ++ [x])%list (length h) y = (h ++ [y])%list.
Proof. induction h; simpl; congruence. Qed.

Lemma nth_error_app_lt {A} (h : list A) x l :
  l < length h -> nth_error (h ++ [x])%list l = nth_error h l.
Proof. intros H. now apply nth_error_app1. Qed.

Ltac enrich_cbn :=
  cbn -[py_len calculate_complexity_score word_count estimate_prep_time
        is_alcoholic identify_spirit_type estimate_calories generate_tags dget].

(** One step of symbolic execution of [enrich_single_cocktail]. *)
Ltac enrich_step :=
  match goal with
  | |- context [nth_error (?h ++ [?x])%list (length ?h)] => rewrite (nth_error_app_len h x)
  | |- context [heap_set (?h ++ [?x])%list (length ?h) ?y] => rewrite (heap_set_app_len h x y)
  | |- context [dget (dict_set ?k ?v ?d) ?k' ?dflt] =>
      rewrite (dget_set_ne k k' v d dflt) by discriminate
  | H : nth_error ?h ?l = Some _ |- context [nth_error (?h ++ [?x])%list ?l] =>
      rewrite (nth_error_app_lt h x l) by (apply nth_error_Some; congruence)
  | H : nth_error ?h ?l = Some _ |- context [nth_error ?h ?l] => rewrite H
  | H : ?a = Ok _ |- context [?a] => rewrite H
  | H : ?a = Exc _ |- context [?a] => rewrite H
  | |- context [py_len ?x] => destruct (py_len x) eqn:?
  | |- context [calculate_complexity_score ?x] => destruct (calculate_complexity_score x) eqn:?
  | |- context [word_count ?x] => destruct (word_count x) eqn:?
  | |- context [estimate_prep_time ?x ?y] => destruct (estimate_prep_time x y) eqn:?
  | |- context [is_alcoholic ?x] => destruct (is_alcoholic x) eqn:?
  | |- context [identify_spirit_type ?x] => destruct (identify_spirit_type x) eqn:?
  | |- context [estimate_calories ?x] => destruct (estimate_calories x) eqn:?
  | |- context [generate_tags ?sl ?x] => destruct (generate_tags sl x) eqn:?
  end; enrich_cbn.

Lemma enrich_single_cocktail_run E sl st l d :
  nth_error (heap st) l = Some d ->
  exists x t,
    enrich_single_cocktail E sl l st =
      (mkstate (heap st ++ [x])%list t (s3_log st) (ddb_log st),
       match derive_fields sl d with
       | Ok _ => Ok (length (heap st))
       | Exc e => Exc e
       end)
    /\ (forall fs, derive_fields sl d = Ok fs ->
                   x = enriched_dict (clock_iso E (ticks st)) d fs).
Proof.
  intros Hl.
  unfold enrich_single_cocktail, derive_fields.
  unfold getitem, m_bind, load, alloc, now_iso, setitem, lift, m_ret, set_heap, tick.
  enrich_cbn.
  repeat enrich_step.
  all: eexists _, _; split; [reflexivity|].
  all: intros fs Hfs; try discriminate.
  injection Hfs as <-. reflexivity.
Qed.

Lemma dict_lookup_app k (d1 d2 : dict) :
  dict_lookup k (d1 ++ d2)%list =
  match dict_lookup k d1 with Some v => Some v | None => dict_lookup k d2 end.
Proof.
  induction d1 as [|[k' v'] d1 IH]; simpl; auto.
  destruct (String.eqb k k'); auto.
Qed.

Lemma dict_lookup_set_all k fs d :
  dict_lookup k (set_all fs d) =
  match dict_lookup k (rev fs) with Some v => Some v | None => dict_lookup k d end.
Proof.
  revert d. induction fs as [|[k' v'] fs IH]; intros d; simpl; auto.
  unfold set_all in *. simpl. rewrite IH, dict_lookup_app. simpl.
  destruct (dict_lookup k (rev fs)); auto.
  destruct (String.eqb k k') eqn:Hk.
  - apply String.eqb_eq in Hk; subst. now rewrite dict_lookup_set_eq.
  - apply String.eqb_neq in Hk. now rewrite dict_lookup_set_ne.
Qed.

Lemma dict_lookup_In k (fs : dict) :
  In k (map fst fs) -> dict_lookup k fs <> None.
Proof.
  induction fs as [|[k' v'] fs IH]; simpl; [tauto|].
  intros [->|H]; [now rewrite String.eqb_refl|].
  destruct (String.eqb k k'); [discriminate|auto].
Qed.

(** A key set by [set_all] reads the same whatever the starting dict. *)
Lemma dict_lookup_set_all_key k fs d1 d2 :
  In k (map fst fs) -> dict_lookup k (set_all fs d1) = dict_lookup k (set_all fs d2).
Proof.
  intros H. rewrite !dict_lookup_set_all.
  assert (Hr : In k (map fst (rev fs))) by (rewrite map_rev; now apply in_rev in H).
  apply dict_lookup_In in Hr. destruct (dict_lookup k (rev fs)); congruence.
Qed.

(** A key not set by [set_all] keeps its value. *)
Lemma dict_lookup_set_all_other k fs d :
  ~ In k (map fst fs) -> dict_lookup k (set_all fs d) = dict_lookup k d.
Proof.
  intros H. rewrite dict_lookup_set_all.
  destruct (dict_lookup k (rev fs)) eqn:Hl; auto.
  exfalso. apply H. rewrite <- (rev_involutive fs), map_rev, <- in_rev.
  clear H. induction (rev fs) as [|[k' v'] l IH]; simpl in *; [discriminate|].
  destruct (String.eqb k k') eqn:Hk; [left; symmetry; now apply String.eqb_eq|right; auto].
Qed.

Lemma dget_agree ks d1 d2 k dflt :
  agree_on ks d1 d2 -> In k ks -> dget d1 k dflt = dget d2 k dflt.
Proof. intros H Hk. unfold dget. now rewrite (H k Hk). Qed.

Lemma generate_tags_agree sl d1 d2 :
  agree_on base_keys d1 d2 -> generate_tags sl d1 = generate_tags sl d2.
Proof.
  intros H. unfold generate_tags.
  rewrite !(dget_agree base_keys d1 d2) by (auto; simpl; tauto).
  reflexivity.
Qed.

Lemma derive_fields_agree sl d1 d2 :
  agree_on base_keys d1 d2 -> derive_fields sl d1 = derive_fields sl d2.
Proof.
  intros H. unfold derive_fields.
  rewrite (generate_tags_agree sl d1 d2 H).
  rewrite !(dget_agree base_keys d1 d2) by (auto; simpl; tauto).
  reflexivity.
Qed.

Lemma derive_fields_keys sl d fs :
  derive_fields sl d = Ok fs -> map fst fs = derived_value_keys.
Proof.
  unfold derive_fields.
  repeat match goal with
         | |- context [result_bind ?r _] => destruct r; cbn [result_bind]; [|discriminate]
         end.
  intros H. injection H as <-. reflexivity.
Qed.

(** The enriched dict agrees with its source on the base fields. *)
Lemma enriched_dict_base now d fs :
  map fst fs = derived_value_keys -> agree_on base_keys (enriched_dict now d fs) d.
Proof.
  intros Hfs k Hk. unfold enriched_dict.
  rewrite dict_lookup_set_all_other.
  - apply dict_lookup_set_ne. intros ->. simpl in Hk. intuition discriminate.
  - rewrite Hfs. simpl in *. intuition (subst; discriminate).
Qed.

(* ------------------------------------------------------------------ *)
(** ** C1: the summary of an empty batch *)

(** C1 (code_bug). With a zero-record batch the average complexity
    [sum(...) / len(data)] divides by zero. [write_processing_summary]
    catches only [ClientError], so the [ZeroDivisionError] escapes it, and
    [lambda_handler] re-raises it: the invocation fails instead of
    reporting [records_processed = 0]. *)
Theorem lambda_handler_empty_batch_raises E sl dp st :
  s3_objects E "mocktailverse-processed-data"
    ("transformed/" ++ dp ++ "/transformed_cocktail_data.json") = Some (VList []) ->
  s3_put_ok E "mocktailverse-processed-data"
    ("enriched/" ++ dp ++ "/enriched_cocktail_data.json") = true ->
  snd (write_processing_summary E [] dp st) = Exc ZeroDivisionError /\
  snd (lambda_handler E sl (mkevent None None (Some dp)) st) = Exc ZeroDivisionError.
Proof.
  intros Hin Hout. split.
  - reflexivity.
  - unfold lambda_handler, enrich_cocktail_data, read_from_s3, write_to_s3.
    cbn in Hin, Hout |- *. rewrite Hin. cbn. rewrite Hout. reflexivity.
Qed.

Lemma lambda_handler_empty_batch_raises_witness :
  s3_objects (sample_env (VList [])) "mocktailverse-processed-data"
    ("transformed/" ++ "2024/01/01" ++ "/transformed_cocktail_data.json") = Some (VList []) /\
  s3_put_ok (sample_env (VList [])) "mocktailverse-processed-data"
    ("enriched/" ++ "2024/01/01" ++ "/enriched_cocktail_data.json") = true /\
  snd (write_processing_summary (sample_env (VList [])) [] "2024/01/01" empty_state)
    = Exc ZeroDivisionError /\
  snd (lambda_handler (sample_env (VList [])) set_list_last
         (mkevent None None (Some "2024/01/01")) empty_state) = Exc ZeroDivisionError.
Proof.
  split; [reflexivity|]. split; [reflexivity|].
  apply (lambda_handler_empty_batch_raises (sample_env (VList [])) set_list_last
           "2024/01/01" empty_state); reflexivity.
Defined.

(* ------------------------------------------------------------------ *)
(** ** C6: the worked scenario *)

Lemma derive_fields_daiquiri sl :
  derive_fields sl daiquiri =
  Ok [("ingredient_count", VInt 3);
      ("complexity_score", VFloat (PFin (8 # 4)));
      ("instruction_word_count", VInt 8);
      ("estimated_prep_time", VInt 4);
      ("is_alcoholic", VBool true);
      ("spirit_type", VStr "rum");
      ("estimated_calories", VInt 241);
      ("tags", VList (map VStr (sl ["rum"; "shaken"; "simple"])))].
Proof. reflexivity. Qed.

(** The field [k] of a successful enrichment of the dict at [l]. *)
Lemma enriched_field_run E sl st l d fs k :
  nth_error (heap st) l = Some d ->
  derive_fields sl d = Ok fs ->
  enriched_field (enrich_single_cocktail E sl l st) k =
  dict_lookup k (enriched_dict (clock_iso E (ticks st)) d fs).
Proof.
  intros Hl Hfs.
  destruct (enrich_single_cocktail_run E sl st l d Hl) as (x & t & Hrun & Hx).
  rewrite Hrun, Hfs. rewrite (Hx fs Hfs). cbn [enriched_field heap].
  now rewrite nth_error_app_len.
Qed.

(** C6. Enriching the spec's daiquiri (Light Rum 2, Lime Juice 1, Simple
    Syrup 0.75; "Shake all ingredients with ice. Strain into glass.")
    gives spirit type "rum", [is_alcoholic] true, three ingredients, tags
    including "shaken" and "rum", and 241 calories: each ingredient's
    contribution is truncated on its own, int(97*2) + int(8*1) +
    int(53*0.75) = 194 + 8 + 39. *)
Theorem daiquiri_enrichment E sl st l :
  set_list_ok sl ->
  nth_error (heap st) l = Some daiquiri ->
  let outcome := enrich_single_cocktail E sl l st in
  enriched_field outcome "spirit_type" = Some (VStr "rum") /\
  enriched_field outcome "is_alcoholic" = Some (VBool true) /\
  enriched_field outcome "ingredient_count" = Some (VInt 3) /\
  enriched_field outcome "estimated_calories" =
    Some (VInt (Z.quot (97 * 2) 1 + Z.quot (8 * 1) 1 + Z.quot (53 * 3) 4)) /\
  exists tags, enriched_field outcome "tags" = Some (VList (map VStr tags)) /\
               In "shaken" tags /\ In "rum" tags.
Proof.
  intros Hsl Hl outcome. unfold outcome.
  rewrite !(enriched_field_run E sl st l daiquiri _ _ Hl (derive_fields_daiquiri sl)).
  split; [reflexivity|]. split; [reflexivity|]. split; [reflexivity|].
  split; [reflexivity|].
  exists (sl ["rum"; "shaken"; "simple"]). split; [reflexivity|].
  destruct (Hsl ["rum"; "shaken"; "simple"]) as [_ Hin].
  split; apply Hin; simpl; auto.
Qed.

Lemma set_list_last_In l x : In x (set_list_last l) <-> In x l.
Proof.
  induction l as [|y l IH]; simpl; [tauto|].
  destruct (existsb (String.eqb y) l) eqn:He; simpl; rewrite IH; split; try tauto.
  intros [->|H]; auto.
  apply existsb_exists in He as (z & Hz & Heq). apply String.eqb_eq in Heq. now subst.
Qed.

Lemma set_list_last_ok : set_list_ok set_list_last.
Proof.
  intros l. split; [|apply set_list_last_In].
  induction l as [|y l IH]; simpl; [constructor|].
  destruct (existsb (String.eqb y) l) eqn:He; auto.
  constructor; auto. rewrite set_list_last_In. intros Hy.
  assert (existsb (String.eqb y) l = true) by (apply existsb_exists; exists y; split; auto; apply String.eqb_refl).
  congruence.
Qed.

Lemma daiquiri_enrichment_witness :
  set_list_ok set_list_last /\
  nth_error (heap (mkstate [daiquiri] 0 [] [])) 0 = Some daiquiri /\
  (let outcome := enrich_single_cocktail (sample_env (VList [])) set_list_last 0
                    (mkstate [daiquiri] 0 [] []) in
   enriched_field outcome "spirit_type" = Some (VStr "rum") /\
   enriched_field outcome "is_alcoholic" = Some (VBool true) /\
   enriched_field outcome "ingredient_count" = Some (VInt 3) /\
   enriched_field outcome "estimated_calories" =
     Some (VInt (Z.quot (97 * 2) 1 + Z.quot (8 * 1) 1 + Z.quot (53 * 3) 4)) /\
   exists tags, enriched_field outcome "tags" = Some (VList (map VStr tags)) /\
                In "shaken" tags /\ In "rum" tags).
Proof.
  split; [exact set_list_last_ok|]. split; [reflexivity|].
  apply (daiquiri_enrichment (sample_env (VList [])) set_list_last
           (mkstate [daiquiri] 0 [] []) 0 set_list_last_ok); reflexivity.
Defined.

(* ------------------------------------------------------------------ *)
(** ** C2 and C4: ingredient amounts and the calorie estimate *)

Lemma first_calorie_nonneg name c :
  first_calorie name calorie_map = Some c -> (0 <= c)%Z.
Proof.
  unfold calorie_map. cbn [first_calorie].
  repeat match goal with
         | |- context [if ?b then _ else _] => destruct b
         end; intros H; try discriminate; injection H as <-; lia.
Qed.

Lemma py_int_mul_nonneg c q k :
  (0 <= c)%Z -> (0 <= q)%Q -> py_int (float_mul_int c (PFin q)) = Ok k -> (0 <= k)%Z.
Proof.
  intros Hc Hq H. unfold float_mul_int, py_int in H. injection H as <-.
  destruct q as [n dn]. unfold Qle in Hq; simpl in *.
  apply Z.quot_pos; nia.
Qed.

Lemma sum_calories_nonneg xs t z :
  (0 <= t)%Z ->
  Forall (fun x => forall q, ingredient_amount x = Ok (PFin q) -> (0 <= q)%Q) xs ->
  sum_calories xs t = Ok z -> (0 <= z)%Z.
Proof.
  revert t. induction xs as [|x xs IH]; intros t Ht Hall H; cbn [sum_calories] in H.
  - injection H as <-. exact Ht.
  - inversion Hall as [|? ? Hx Hrest]; subst.
    unfold ingredient_amount in Hx.
    destruct (ing_name x) as [name|e]; cbn [result_bind] in H; [|discriminate].
    destruct (val_get x "amount" (VInt 0)) as [a|e]; cbn [result_bind] in H, Hx; [|discriminate].
    destruct (py_float a) as [amount|e]; cbn [result_bind] in H; [|discriminate].
    destruct (first_calorie name calorie_map) as [c|] eqn:Hc.
    + destruct (py_int (float_mul_int c amount)) as [k|e] eqn:Hk;
        cbn [result_bind] in H; [|discriminate].
      destruct amount as [q|neg|].
      * apply (IH (t + k)%Z); auto.
        pose proof (py_int_mul_nonneg c q k (first_calorie_nonneg _ _ Hc) (Hx q eq_refl) Hk).
        lia.
      * cbn in Hk. destruct (c =? 0)%Z; discriminate.
      * discriminate.
    + eapply IH; eauto.
Qed.

(** C4 (corrected). The calorie estimate is an integer, and it is at least
    0 whenever every ingredient amount that [float()] reads as a finite
    number is non-negative; a negative amount can make it negative. *)
Theorem estimate_calories_nonneg ingredients xs z :
  py_iter ingredients = Ok xs ->
  Forall (fun x => forall q, ingredient_amount x = Ok (PFin q) -> (0 <= q)%Q) xs ->
  estimate_calories ingredients = Ok z -> (0 <= z)%Z.
Proof.
  intros Hxs Hall H. unfold estimate_calories in H. rewrite Hxs in H. cbn in H.
  eapply sum_calories_nonneg; eauto. lia.
Qed.

Definition daiquiri_ingredients : val := dget daiquiri "ingredients" (VList []).

Lemma estimate_calories_nonneg_witness :
  (exists xs,
     py_iter daiquiri_ingredients = Ok xs /\
     Forall (fun x => forall q, ingredient_amount x = Ok (PFin q) -> (0 <= q)%Q) xs) /\
  estimate_calories daiquiri_ingredients = Ok 241%Z /\ (0 <= 241)%Z.
Proof.
  split.
  - eexists; split; [reflexivity|].
    repeat constructor; cbn; intros q Hq; injection Hq as <-; unfold Qle; simpl; lia.
  - split; [reflexivity|].
    apply (estimate_calories_nonneg daiquiri_ingredients
             (match py_iter daiquiri_ingredients with Ok xs => xs | Exc _ => [] end));
      [reflexivity| |reflexivity].
    repeat constructor; cbn; intros q Hq; injection Hq as <-; unfold Qle; simpl; lia.
Defined.

(** C4: a rum ingredient with amount -1 is estimated at -97 calories. *)
Lemma estimate_calories_negative_amount :
  estimate_calories (VList [ingredient "Rum" (VInt (-1))]) = Ok (-97)%Z.
Proof. reflexivity. Qed.

Lemma derive_fields_calories_exc sl d e :
  estimate_calories (dget d "ingredients" (VList [])) = Exc e ->
  exists e', derive_fields sl d = Exc e'.
Proof.
  intros H. unfold derive_fields.
  repeat match goal with
         | |- context [result_bind (estimate_calories ?x) _] =>
             rewrite H; cbn [result_bind]; eexists; reflexivity
         | |- context [result_bind ?r _] =>
             destruct r; cbn [result_bind]; [|eexists; reflexivity]
         end.
Qed.



Definition splash_recipe : dict :=
  [("ingredients", VList [ingredient "Light Rum" (VStr "a splash")])].



(** C2: the amount "a splash" makes the calorie estimate raise
    [ValueError], and the whole invocation fails with it. *)
Lemma unparsable_amount_aborts :
  estimate_calories (dget splash_recipe "ingredients" (VList [])) = Exc ValueError /\
  snd (lambda_handler (sample_env (VList [VDict splash_recipe])) set_list_last
         sample_event empty_state) = Exc ValueError.
Proof. split; vm_compute; reflexivity. Qed.

(* ------------------------------------------------------------------ *)
(** ** C5: ranges of the complexity score and of the prep time *)

Lemma py_min_le_r a b : (py_min a b <= b)%Q.
Proof.
  unfold py_min. destruct (Qle_bool a b) eqn:H.
  - now apply Qle_bool_iff in H.
  - apply Qle_refl.
Qed.

Lemma py_min_nonneg a b : (0 <= a)%Q -> (0 <= b)%Q -> (0 <= py_min a b)%Q.
Proof. unfold py_min. destruct (Qle_bool a b); auto. Qed.

Lemma add_bonus_mono subs bonus xs score r :
  (0 <= bonus)%Q -> add_bonus subs bonus xs score = Ok r -> (score <= r)%Q.
Proof.
  revert score. induction xs as [|x xs IH]; intros score Hb H; cbn [add_bonus] in H.
  - injection H as <-. apply Qle_refl.
  - destruct (ing_name x) as [name|e]; cbn [result_bind] in H; [|discriminate].
    apply IH in H; auto.
    destruct (any_in name subs); lra.
Qed.

(** C5. Whenever the complexity score is computed it lies in [0, 10]
    (it starts at 0.0 plus min(0.5 * count, 3.0), gains non-negative
    bonuses and is capped at 10.0); for every instructions string the
    prep time is computed and lies in [3, 15]. *)
Theorem complexity_and_prep_time_bounds ingredients q s :
  calculate_complexity_score ingredients = Ok q ->
  (0 <= q <= 10)%Q /\
  exists n, estimate_prep_time ingredients (VStr s) = Ok n /\ (3 <= n <= 15)%Z.
Proof.
  intros H. split.
  - unfold calculate_complexity_score in H.
    destruct (py_len ingredients) as [n|e]; cbn [result_bind] in H; [|discriminate].
    destruct (py_iter ingredients) as [xs|e]; cbn [result_bind] in H; [|discriminate].
    destruct (add_bonus specialty_ingredients 1 xs _) as [s1|e] eqn:H1;
      cbn [result_bind] in H; [|discriminate].
    destruct (add_bonus fresh_indicators (1 # 2) xs s1) as [s2|e] eqn:H2;
      cbn [result_bind] in H; [|discriminate].
    injection H as <-.
    apply add_bonus_mono in H1; [|lra]. apply add_bonus_mono in H2; [|lra].
    assert (H0 : (0 <= py_min (inject_Z (Z.of_nat n) * (1 # 2)) 3)%Q).
    { apply py_min_nonneg; [|lra].
      apply Qmult_le_0_compat; [|lra]. unfold Qle; simpl; lia. }
    split.
    + apply py_min_nonneg; lra.
    + apply py_min_le_r.
  - unfold estimate_prep_time. eexists; split; [reflexivity|].
    destruct (str_contains (lower s) "muddle"), (str_contains (lower s) "shake"); lia.
Qed.

Lemma complexity_and_prep_time_bounds_witness :
  calculate_complexity_score daiquiri_ingredients = Ok (8 # 4)%Q /\
  (0 <= 8 # 4 <= 10)%Q /\
  exists n, estimate_prep_time daiquiri_ingredients (VStr "Muddle; shake. Strain.") = Ok n /\
            (3 <= n <= 15)%Z.
Proof.
  split; [reflexivity|].
  apply (complexity_and_prep_time_bounds daiquiri_ingredients (8 # 4)%Q
           "Muddle; shake. Strain."); reflexivity.
Defined.

(* ------------------------------------------------------------------ *)
(** ** C9: the spirit type *)

Lemma scan_ingredients_names keywords xs names :
  map_res ing_name xs = Ok names ->
  scan_ingredients keywords xs = Ok (existsb (fun name => any_in name keywords) names).
Proof.
  revert names. induction xs as [|x xs IH]; intros names H; cbn in H.
  - injection H as <-. reflexivity.
  - destruct (ing_name x) as [name|e] eqn:Hx; cbn [result_bind] in H; [|discriminate].
    destruct (map_res ing_name xs) as [ns|e] eqn:Hxs; cbn [result_bind] in H; [|discriminate].
    injection H as <-. cbn [scan_ingredients]. rewrite Hx. cbn [result_bind existsb].
    destruct (any_in name keywords); cbn [orb]; auto.
Qed.

(** C9 (refinement). For an ingredient list whose items are dicts with
    string names (or no name), [identify_spirit_type] returns the first
    spirit of the fixed order vodka, gin, rum, tequila, whiskey, brandy
    for which some lowercased ingredient name contains one of its
    keywords, and "non-alcoholic" when there is none. *)
Theorem identify_spirit_type_refines xs names :
  map_res ing_name xs = Ok names ->
  identify_spirit_type (VList xs) = Ok (spirit_type_spec names).
Proof.
  intros H. unfold identify_spirit_type, spirit_type_spec.
  induction spirit_map as [|[spirit keywords] m IH]; cbn [scan_spirits find]; auto.
  cbn [py_iter result_bind]. rewrite (scan_ingredients_names keywords xs names H).
  cbn [result_bind snd]. destruct (existsb _ names); auto.
Qed.

Lemma identify_spirit_type_refines_witness :
  map_res ing_name [ingredient "Smirnoff" (VInt 1); ingredient "Gin" (VInt 1)] =
    Ok ["smirnoff"; "gin"] /\
  identify_spirit_type (VList [ingredient "Smirnoff" (VInt 1); ingredient "Gin" (VInt 1)]) =
    Ok (spirit_type_spec ["smirnoff"; "gin"]).
Proof.
  split; [reflexivity|].
  apply identify_spirit_type_refines; reflexivity.
Defined.

(* ------------------------------------------------------------------ *)
(** ** C3: the tag set *)

Definition spirit_values : list string :=
  ["vodka"; "gin"; "rum"; "tequila"; "whiskey"; "brandy"; "non-alcoholic"].

Lemma identify_spirit_type_values x s :
  identify_spirit_type x = Ok s -> In s spirit_values.
Proof.
  unfold identify_spirit_type, spirit_values.
  change ["vodka"; "gin"; "rum"; "tequila"; "whiskey"; "brandy"; "non-alcoholic"]
    with (map fst spirit_map ++ ["non-alcoholic"])%list.
  induction spirit_map as [|[spirit keywords] m IH]; cbn [scan_spirits].
  - intros H. injection H as <-. simpl. auto.
  - destruct (py_iter x) as [xs|e]; cbn [result_bind]; [|discriminate].
    destruct (scan_ingredients keywords xs) as [[|]|e]; cbn [result_bind]; try discriminate.
    + intros H. injection H as <-. simpl. auto.
    + intros H. simpl. right. auto.
Qed.

Lemma in_cond_app (b : bool) (l : list string) x t :
  In t (if b then (l ++ [x])%list else l) -> In t l \/ t = x.
Proof. destruct b; auto. rewrite in_app_iff. simpl. intuition. Qed.

Lemma in_cond_single (b : bool) (x t : string) :
  In t (if b then [] else [x]) -> In t [] \/ t = x.
Proof. destruct b; simpl; intuition. Qed.

Lemma in_cond_app_r (b : bool) (l : list string) x t :
  In t (if b then l else (l ++ [x])%list) -> In t l \/ t = x.
Proof. destruct b; auto. rewrite in_app_iff. simpl. intuition. Qed.

(** C3 (corrected). The tag set has no duplicates and contains the
    complexity tag of the recomputed score ("simple" below 3,
    "intermediate" below 6, "complex" otherwise); any other of "simple",
    "intermediate", "complex" in it is the lowercased category or glass. *)
Theorem generate_tags_complexity_tag sl cocktail tags :
  set_list_ok sl ->
  generate_tags sl cocktail = Ok tags ->
  NoDup tags /\
  exists c,
    calculate_complexity_score (dget cocktail "ingredients" (VList [])) = Ok c /\
    In (complexity_tag c) tags /\
    forall t, In t complexity_tags -> In t tags ->
      t = complexity_tag c \/
      str_lower (dget cocktail "category" (VStr "")) = Ok t \/
      str_lower (dget cocktail "glass" (VStr "")) = Ok t.
Proof.
  intros Hsl H. unfold generate_tags in H.
  destruct (str_lower (dget cocktail "category" (VStr ""))) as [category|e] eqn:Hcat;
    cbn [result_bind] in H; [|discriminate].
  destruct (str_lower (dget cocktail "glass" (VStr ""))) as [glass|e] eqn:Hgl;
    cbn [result_bind] in H; [|discriminate].
  destruct (identify_spirit_type (dget cocktail "ingredients" (VList []))) as [spirit|e] eqn:Hsp;
    cbn [result_bind] in H; [|discriminate].
  destruct (str_lower (dget cocktail "instructions" (VStr ""))) as [instructions|e];
    cbn [result_bind] in H; [|discriminate].
  destruct (calculate_complexity_score (dget cocktail "ingredients" (VList []))) as [c|e];
    cbn [result_bind] in H; [|discriminate].
  injection H as <-.
  match goal with |- context [sl ?L] => destruct (Hsl L) as [Hnd HinL] end.
  apply identify_spirit_type_values in Hsp.
  split; [exact Hnd|]. exists c. split; [reflexivity|].
  unfold complexity_tag. split.
  - apply HinL.
    destruct (py_lt c 3); [|destruct (py_lt c 6)]; apply in_or_app; right; simpl; auto.
  - intros t Ht Hin. apply HinL in Hin.
    unfold complexity_tags, spirit_values in *.
    destruct (py_lt c 3); [|destruct (py_lt c 6)];
      (apply in_app_iff in Hin; destruct Hin as [Hin|Hin];
       [|left; simpl in Hin; intuition]);
      repeat (first [apply in_cond_app in Hin | apply in_cond_app_r in Hin
                     | apply in_cond_single in Hin];
              destruct Hin as [Hin|Hin]; [|subst t]);
      solve [ simpl in Hin; contradiction
            | right; left; assumption
            | right; right; assumption
            | simpl in Ht, Hsp; intuition (subst; discriminate) ].
Qed.

Lemma generate_tags_complexity_tag_witness :
  set_list_ok set_list_last /\
  generate_tags set_list_last daiquiri = Ok ["rum"; "shaken"; "simple"] /\
  NoDup ["rum"; "shaken"; "simple"] /\
  exists c,
    calculate_complexity_score (dget daiquiri "ingredients" (VList [])) = Ok c /\
    In (complexity_tag c) ["rum"; "shaken"; "simple"] /\
    forall t, In t complexity_tags -> In t ["rum"; "shaken"; "simple"] ->
      t = complexity_tag c \/
      str_lower (dget daiquiri "category" (VStr "")) = Ok t \/
      str_lower (dget daiquiri "glass" (VStr "")) = Ok t.
Proof.
  split; [exact set_list_last_ok|]. split; [reflexivity|].
  apply (generate_tags_complexity_tag set_list_last daiquiri); [exact set_list_last_ok|].
  reflexivity.
Defined.

(** C3: a recipe of category "Complex" with no ingredients scores 0, so
    its tags hold both "complex" (the category) and "simple". *)
Lemma generate_tags_two_complexity_words :
  generate_tags set_list_last [("category", VStr "Complex")] = Ok ["complex"; "simple"].
Proof. vm_compute. reflexivity. Qed.

(* ------------------------------------------------------------------ *)
(** ** Derived values as a function of [derive_fields] *)

(** A key set by [set_all] is present. *)
Lemma dict_lookup_set_all_In k fs d :
  In k (map fst fs) -> dict_lookup k (set_all fs d) <> None.
Proof.
  intros H. rewrite dict_lookup_set_all.
  assert (Hr : In k (map fst (rev fs))) by (rewrite map_rev; now apply in_rev in H).
  apply dict_lookup_In in Hr. destruct (dict_lookup k (rev fs)); congruence.
Qed.

(** The derived part of an enrichment's outcome depends only on the
    derivers' results for the source dict. *)
Lemma derived_view_run E sl st l d :
  nth_error (heap st) l = Some d ->
  derived_view (enrich_single_cocktail E sl l st) =
  match derive_fields sl d with
  | Ok fs => Ok (map (fun k => dict_lookup k (set_all fs [])) derived_value_keys)
  | Exc e => Exc e
  end.
Proof.
  intros Hl.
  destruct (enrich_single_cocktail_run E sl st l d Hl) as (x & t & Hrun & Hx).
  rewrite Hrun. destruct (derive_fields sl d) as [fs|e] eqn:Hfs; cbn [derived_view heap]; auto.
  rewrite nth_error_app_len, (Hx fs eq_refl). f_equal.
  apply map_ext_in. intros k Hk. unfold enriched_dict.
  apply dict_lookup_set_all_key. now rewrite (derive_fields_keys sl d fs Hfs).
Qed.

(* ------------------------------------------------------------------ *)
(** ** C7: idempotence of the derived values *)

(** C7. If enriching the record at [l] succeeds with the record at [l1],
    that record keeps the source's ingredients, instructions, category and
    glass, and enriching it again succeeds with the same value (or the same
    absence) for every derived field other than [enriched_at]. *)
Theorem enrich_idempotent E sl st l d st1 l1 :
  nth_error (heap st) l = Some d ->
  enrich_single_cocktail E sl l st = (st1, Ok l1) ->
  exists d1,
    nth_error (heap st1) l1 = Some d1 /\
    agree_on base_keys d1 d /\
    derived_view (enrich_single_cocktail E sl l1 st1) = derived_view (st1, Ok l1).
Proof.
  intros Hl H1.
  destruct (enrich_single_cocktail_run E sl st l d Hl) as (x & t & Hrun & Hx).
  rewrite Hrun in H1.
  destruct (derive_fields sl d) as [fs|e] eqn:Hfs; [|discriminate].
  injection H1 as <- <-. specialize (Hx fs eq_refl). subst x.
  pose proof (derive_fields_keys sl d fs Hfs) as Hkeys.
  pose proof (enriched_dict_base (clock_iso E (ticks st)) d fs Hkeys) as Hbase.
  exists (enriched_dict (clock_iso E (ticks st)) d fs).
  split; [apply nth_error_app_len|]. split; [exact Hbase|].
  erewrite derived_view_run by (cbn [heap]; apply nth_error_app_len).
  rewrite (derive_fields_agree sl _ _ Hbase), Hfs.
  cbn [derived_view heap]. rewrite nth_error_app_len. f_equal.
  apply map_ext_in. intros k Hk. unfold enriched_dict.
  apply dict_lookup_set_all_key. now rewrite Hkeys.
Qed.

Lemma enrich_idempotent_witness :
  let st0 := mkstate [daiquiri] 0 [] [] in
  let st1 := fst (enrich_single_cocktail (sample_env VNone) set_list_last 0 st0) in
  exists d1,
    nth_error (heap st1) 1 = Some d1 /\
    agree_on base_keys d1 daiquiri /\
    derived_view (enrich_single_cocktail (sample_env VNone) set_list_last 1 st1) =
    derived_view (st1, Ok 1).
Proof.
  intros st0 st1.
  apply (enrich_idempotent (sample_env VNone) set_list_last st0 0 daiquiri st1 1).
  - reflexivity.
  - unfold st1. vm_compute. reflexivity.
Defined.

(* ------------------------------------------------------------------ *)
(** ** C8: the source record is left alone *)

(** The enriched record holds the clock reading and the derived values. *)
Lemma enriched_dict_derived sl now d fs :
  derive_fields sl d = Ok fs ->
  dict_lookup "enriched_at" (enriched_dict now d fs) = Some (VStr now) /\
  (forall k v, In (k, v) fs -> dict_lookup k (enriched_dict now d fs) = Some v).
Proof.
  unfold derive_fields.
  repeat match goal with
         | |- context [result_bind ?r _] => destruct r; cbn [result_bind]; [|discriminate]
         end.
  intros H. injection H as <-. unfold enriched_dict. split.
  - rewrite dict_lookup_set_all. cbn [rev app dict_lookup String.eqb Ascii.eqb Bool.eqb].
    apply dict_lookup_set_eq.
  - intros k v Hin. cbn [In] in Hin.
    repeat destruct Hin as [Hin|Hin];
      solve [ injection Hin as <- <-; rewrite dict_lookup_set_all; reflexivity | contradiction ].
Qed.

(** C8 (as the code behaves). Enriching the record at [l] changes no
    record already on the heap, the source included, whatever the outcome.
    On success the result is a fresh record, distinct from the source; it
    holds every field of the source whose name is not one of the nine
    derived names with its original value, and it holds every derived
    field.  A source field with a derived name is overwritten: the result
    holds the clock reading under [enriched_at] and, under each of the
    other eight names, the value the derivers compute. *)
Theorem enrich_single_cocktail_frame E sl st l d :
  nth_error (heap st) l = Some d ->
  (forall l0, l0 < length (heap st) ->
     nth_error (heap (fst (enrich_single_cocktail E sl l st))) l0 = nth_error (heap st) l0) /\
  (forall l', snd (enrich_single_cocktail E sl l st) = Ok l' ->
     l' = length (heap st) /\ l' <> l /\
     exists d', nth_error (heap (fst (enrich_single_cocktail E sl l st))) l' = Some d' /\
       (forall k, ~ In k derived_keys -> dict_lookup k d' = dict_lookup k d) /\
       (forall k, In k derived_keys -> dict_lookup k d' <> None) /\
       dict_lookup "enriched_at" d' = Some (VStr (clock_iso E (ticks st))) /\
       exists fs, derive_fields sl d = Ok fs /\ map fst fs = derived_value_keys /\
         (forall k v, In (k, v) fs -> dict_lookup k d' = Some v)).
Proof.
  intros Hl.
  assert (Hlt : l < length (heap st)) by (apply nth_error_Some; congruence).
  destruct (enrich_single_cocktail_run E sl st l d Hl) as (x & t & Hrun & Hx).
  rewrite Hrun. cbn [fst snd heap]. split.
  - intros l0 Hl0. now apply nth_error_app_lt.
  - intros l' Hr. destruct (derive_fields sl d) as [fs|e] eqn:Hfs; [|discriminate].
    injection Hr as <-. specialize (Hx fs eq_refl). subst x.
    pose proof (derive_fields_keys sl d fs Hfs) as Hkeys.
    split; [reflexivity|]. split; [lia|].
    exists (enriched_dict (clock_iso E (ticks st)) d fs).
    split; [apply nth_error_app_len|].
    destruct (enriched_dict_derived sl (clock_iso E (ticks st)) d fs Hfs) as [Hea Hv].
    split; [|split; [|split; [exact Hea|exists fs; auto]]]; unfold enriched_dict.
    + intros k Hk. rewrite dict_lookup_set_all_other.
      * apply dict_lookup_set_ne. intros ->. apply Hk. simpl. auto.
      * rewrite Hkeys. intros H. apply Hk. simpl. auto.
    + intros k Hk. simpl in Hk. destruct Hk as [<-|Hk].
      * rewrite dict_lookup_set_all_other by (rewrite Hkeys; simpl; intuition discriminate).
        now rewrite dict_lookup_set_eq.
      * apply dict_lookup_set_all_In. now rewrite Hkeys.
Qed.

Lemma enrich_single_cocktail_frame_witness :
  nth_error (heap (mkstate [daiquiri] 0 [] [])) 0 = Some daiquiri /\
  (forall l0, l0 < 1 ->
     nth_error (heap (fst (enrich_single_cocktail (sample_env VNone) set_list_last 0
                             (mkstate [daiquiri] 0 [] [])))) l0 =
     nth_error [daiquiri] l0) /\
  (forall l', snd (enrich_single_cocktail (sample_env VNone) set_list_last 0
                     (mkstate [daiquiri] 0 [] [])) = Ok l' ->
     l' = 1 /\ l' <> 0 /\
     exists d', nth_error (heap (fst (enrich_single_cocktail (sample_env VNone) set_list_last 0
                                       (mkstate [daiquiri] 0 [] [])))) l' = Some d' /\
       (forall k, ~ In k derived_keys -> dict_lookup k d' = dict_lookup k daiquiri) /\
       (forall k, In k derived_keys -> dict_lookup k d' <> None) /\
       dict_lookup "enriched_at" d' =
         Some (VStr (clock_iso (sample_env VNone) (ticks (mkstate [daiquiri] 0 [] [])))) /\
       exists fs, derive_fields set_list_last daiquiri = Ok fs /\
         map fst fs = derived_value_keys /\
         (forall k v, In (k, v) fs -> dict_lookup k d' = Some v)).
Proof.
  split; [reflexivity|].
  apply (enrich_single_cocktail_frame (sample_env VNone) set_list_last
           (mkstate [daiquiri] 0 [] []) 0 daiquiri).
  reflexivity.
Defined.

(** C8: a recipe that already carries a [tags] field (here the source's
    own ["IBA"] label) comes back with that field replaced by the
    generated tags, while the source keeps it. *)
Lemma enrich_overwrites_source_tags :
  let src := [("category", VStr "Cocktail"); ("tags", VList [VStr "IBA"])] in
  let outcome := enrich_single_cocktail (sample_env VNone) set_list_last 0
                   (mkstate [src] 0 [] []) in
  dict_lookup "tags" src = Some (VList [VStr "IBA"]) /\
  nth_error (heap (fst outcome)) 0 = Some src /\
  enriched_field outcome "tags" = Some (VList [VStr "cocktail"; VStr "simple"]).
Proof. vm_compute. repeat split. Qed.

(* ------------------------------------------------------------------ *)
(** ** C10: only the four base fields reach the derived values *)

(** C10. Two records that agree on ingredients, instructions, category
    and glass (present with equal values, or both absent) give enrichment
    outcomes with the same derived fields other than [enriched_at]: both
    fail with the same exception, or both succeed with equal values for
    each of the eight fields.  This holds at any heap position, heap state
    and clock. *)
Theorem derived_fields_noninterference E1 E2 sl st1 l1 d1 st2 l2 d2 :
  nth_error (heap st1) l1 = Some d1 ->
  nth_error (heap st2) l2 = Some d2 ->
  agree_on base_keys d1 d2 ->
  derived_view (enrich_single_cocktail E1 sl l1 st1) =
  derived_view (enrich_single_cocktail E2 sl l2 st2).
Proof.
  intros H1 H2 Hagree.
  rewrite (derived_view_run E1 sl st1 l1 d1 H1), (derived_view_run E2 sl st2 l2 d2 H2).
  now rewrite (derive_fields_agree sl d1 d2 Hagree).
Qed.

(** Two copies of the daiquiri that differ in a [name] field. *)
Definition named_daiquiri (name : string) : dict := ("name", VStr name) :: daiquiri.

Lemma derived_fields_noninterference_witness :
  agree_on base_keys (named_daiquiri "Daiquiri") (named_daiquiri "Hemingway") /\
  derived_view (enrich_single_cocktail (sample_env VNone) set_list_last 0
                  (mkstate [named_daiquiri "Daiquiri"] 0 [] [])) =
  derived_view (enrich_single_cocktail (sample_env VNone) set_list_last 1
                  (mkstate [daiquiri; named_daiquiri "Hemingway"] 5 [] [])).
Proof.
  assert (Hagree : agree_on base_keys (named_daiquiri "Daiquiri") (named_daiquiri "Hemingway")).
  { intros k Hk. simpl in Hk. intuition (subst; reflexivity). }
  split; [exact Hagree|].
  apply (derived_fields_noninterference (sample_env VNone) (sample_env VNone) set_list_last
           _ 0 (named_daiquiri "Daiquiri") _ 1 (named_daiquiri "Hemingway")); auto.
Defined.

(* ------------------------------------------------------------------ *)
(** ** Further properties of the field derivers *)

(** A pattern without a space that is a prefix of [a ++ " " ++ b] is a
    prefix of [a]. *)
Lemma prefix_app_space (p a b : string) :
  ~ In " "%char (list_ascii_of_string p) ->
  String.prefix p (a ++ String " " b) = String.prefix p a.
Proof.
  revert a. induction p as [|c p IH]; intros a Hp; destruct a as [|d a]; cbn; auto.
  - destruct (Ascii.ascii_dec c " "); auto. subst c. exfalso. apply Hp. now left.
  - destruct (Ascii.ascii_dec c d); auto. apply IH. intros H. apply Hp. now right.
Qed.

Lemma str_contains_empty p : p <> "" -> str_contains "" p = false.
Proof. destruct p; [congruence|reflexivity]. Qed.

(** Joining with a space creates no new occurrence of a space-free pattern. *)
Lemma str_contains_app_space (p a b : string) :
  p <> "" -> ~ In " "%char (list_ascii_of_string p) ->
  str_contains (a ++ String " " b) p = str_contains a p || str_contains b p.
Proof.
  intros Hne Hp. induction a as [|c a IH].
  - cbn [String.append str_contains].
    destruct p as [|c p]; [congruence|].
    cbn [String.prefix]. destruct (Ascii.ascii_dec c " ").
    + subst c. exfalso. apply Hp. now left.
    + reflexivity.
  - change (String c a ++ String " " b) with (String c (a ++ String " " b)).
    cbn [str_contains]. rewrite IH.
    change (String c (a ++ String " " b)) with (String c a ++ String " " b).
    rewrite prefix_app_space by exact Hp. now rewrite orb_assoc.
Qed.

Lemma str_contains_concat_space (p : string) names :
  p <> "" -> ~ In " "%char (list_ascii_of_string p) ->
  str_contains (String.concat " " names) p = existsb (fun name => str_contains name p) names.
Proof.
  intros Hne Hp. induction names as [|x [|y ys] IH].
  - apply str_contains_empty, Hne.
  - cbn. now rewrite orb_false_r.
  - change (String.concat " " (x :: y :: ys)) with (x ++ String " " (String.concat " " (y :: ys))).
    rewrite str_contains_app_space by assumption. rewrite IH. reflexivity.
Qed.

(** X1. [is_alcoholic] holds exactly when some lowercased ingredient name
    contains "rum": joining the names with spaces never produces a match
    across two names. *)
Theorem is_alcoholic_any_name ingredients :
  is_alcoholic ingredients =
  (let! xs := py_iter ingredients in
   let! names := map_res ing_name xs in
   Ok (existsb (fun name => str_contains name "rum") names)).
Proof.
  unfold is_alcoholic.
  destruct (py_iter ingredients) as [xs|e]; cbn [result_bind]; auto.
  destruct (map_res ing_name xs) as [names|e]; cbn [result_bind]; auto.
  rewrite str_contains_concat_space; auto.
  - discriminate.
  - cbn. intuition discriminate.
Qed.

Lemma any_in_rum name :
  str_contains name "rum" = true -> any_in name ["rum"; "bacardi"; "havana club"] = true.
Proof. intros H. cbn [any_in existsb]. now rewrite H. Qed.

(** X2. A recipe that [is_alcoholic] deems alcoholic always has a spirit
    type other than "non-alcoholic" (the converse fails: a vodka-only
    recipe has spirit type "vodka" and is not alcoholic). *)
Theorem is_alcoholic_has_spirit ingredients :
  is_alcoholic ingredients = Ok true ->
  exists s, identify_spirit_type ingredients = Ok s /\ s <> "non-alcoholic".
Proof.
  unfold is_alcoholic.
  destruct (py_iter ingredients) as [xs|e] eqn:Hxs; cbn [result_bind]; [|discriminate].
  destruct (map_res ing_name xs) as [names|e] eqn:Hn; cbn [result_bind]; [|discriminate].
  intros H. injection H as H.
  rewrite str_contains_concat_space in H by (discriminate || (cbn; intuition discriminate)).
  unfold identify_spirit_type, spirit_map. cbn [scan_spirits]. rewrite Hxs.
  cbn [result_bind]. rewrite !(scan_ingredients_names _ xs names Hn). cbn [result_bind].
  destruct (existsb (fun name => any_in name ["vodka"; "absolut"; "smirnoff"]) names);
    [eexists; split; [reflexivity|discriminate]|].
  destruct (existsb (fun name => any_in name ["gin"; "hendrick"; "tanqueray"]) names);
    [eexists; split; [reflexivity|discriminate]|].
  replace (existsb (fun name => any_in name ["rum"; "bacardi"; "havana club"]) names) with true.
  - eexists; split; [reflexivity|discriminate].
  - symmetry. apply existsb_exists in H as (name & Hin & Hr).
    apply existsb_exists. exists name. split; auto. now apply any_in_rum.
Qed.

Lemma is_alcoholic_has_spirit_witness :
  is_alcoholic (VList [ingredient "Smirnoff Vodka" (VInt 1); ingredient "Dark Rum" (VInt 1)])
    = Ok true /\
  exists s, identify_spirit_type
              (VList [ingredient "Smirnoff Vodka" (VInt 1); ingredient "Dark Rum" (VInt 1)])
            = Ok s /\ s <> "non-alcoholic".
Proof.
  split; [reflexivity|]. apply is_alcoholic_has_spirit. reflexivity.
Defined.

Lemma add_bonus_app subs bonus xs ys score :
  add_bonus subs bonus (xs ++ ys) score =
  (let! s := add_bonus subs bonus xs score in add_bonus subs bonus ys s).
Proof.
  revert score. induction xs as [|x xs IH]; intros score; cbn [add_bonus app]; auto.
  destruct (ing_name x); cbn [result_bind]; auto.
Qed.

(** [add_bonus] is monotone in its starting score. *)
Lemma add_bonus_start_mono subs bonus xs s1 s2 r1 :
  (s1 <= s2)%Q -> add_bonus subs bonus xs s1 = Ok r1 ->
  exists r2, add_bonus subs bonus xs s2 = Ok r2 /\ (r1 <= r2)%Q.
Proof.
  revert s1 s2. induction xs as [|x xs IH]; intros s1 s2 Hs H; cbn [add_bonus] in *.
  - injection H as <-. eauto.
  - destruct (ing_name x) as [name|e]; cbn [result_bind] in *; [|discriminate].
    apply (IH _ (if any_in name subs then (s2 + bonus)%Q else s2)) in H; auto.
    destruct (any_in name subs); lra.
Qed.

Lemma py_min_mono_l a b c : (a <= b)%Q -> (py_min a c <= py_min b c)%Q.
Proof.
  unfold py_min. intros H.
  pose proof (Qle_bool_iff a c) as Ea. pose proof (Qle_bool_iff b c) as Eb.
  destruct (Qle_bool a c), (Qle_bool b c).
  - exact H.
  - now apply Ea.
  - exfalso.
    assert (~ (a <= c)%Q) by (intros X; apply Ea in X; discriminate).
    assert (b <= c)%Q by (now apply Eb). lra.
  - apply Qle_refl.
Qed.

(** X3. Adding ingredients to a list never lowers its complexity score. *)
Theorem complexity_score_app_mono xs ys a b :
  calculate_complexity_score (VList xs) = Ok a ->
  calculate_complexity_score (VList (xs ++ ys)) = Ok b ->
  (a <= b)%Q.
Proof.
  unfold calculate_complexity_score, py_len. cbn [py_iter result_bind].
  rewrite !add_bonus_app.
  set (base1 := (0 + py_min (inject_Z (Z.of_nat (length xs)) * (1 # 2)) 3)%Q).
  set (base2 := (0 + py_min (inject_Z (Z.of_nat (length (xs ++ ys))) * (1 # 2)) 3)%Q).
  assert (Hbase : (base1 <= base2)%Q).
  { unfold base1, base2. apply Qplus_le_r, py_min_mono_l, Qmult_le_r; [reflexivity|].
    rewrite <- Zle_Qle, length_app. lia. }
  destruct (add_bonus specialty_ingredients 1 xs base1) as [s1|e] eqn:H1;
    cbn [result_bind]; [|discriminate].
  destruct (add_bonus fresh_indicators (1 # 2) xs s1) as [t1|e] eqn:H2;
    cbn [result_bind]; [|discriminate].
  intros Ha. injection Ha as <-.
  destruct (add_bonus_start_mono _ _ _ _ _ _ Hbase H1) as (s2 & Hs2 & Hs12).
  rewrite Hs2. cbn [result_bind].
  destruct (add_bonus specialty_ingredients 1 ys s2) as [s3|e] eqn:H3;
    cbn [result_bind]; [|discriminate].
  apply add_bonus_mono in H3; [|lra].
  destruct (add_bonus_start_mono _ _ _ s1 s3 _ ltac:(lra) H2) as (t2 & Ht2 & Ht12).
  rewrite add_bonus_app, Ht2. cbn [result_bind].
  destruct (add_bonus fresh_indicators (1 # 2) ys t2) as [t3|e] eqn:H4;
    cbn [result_bind]; [|discriminate].
  apply add_bonus_mono in H4; [|lra].
  intros Hb. injection Hb as <-. apply py_min_mono_l. lra.
Qed.

Lemma complexity_score_app_mono_witness :
  calculate_complexity_score (VList [ingredient "Gin" (VInt 2)]) = Ok (1 # 2)%Q /\
  calculate_complexity_score
    (VList ([ingredient "Gin" (VInt 2)] ++ [ingredient "Orgeat" (VInt 1); ingredient "Lime" (VInt 1)]))
    = Ok (12 # 4)%Q /\
  (1 # 2 <= 12 # 4)%Q.
Proof.
  split; [vm_compute; reflexivity|]. split; [vm_compute; reflexivity|].
  apply (complexity_score_app_mono [ingredient "Gin" (VInt 2)]
           [ingredient "Orgeat" (VInt 1); ingredient "Lime" (VInt 1)]);
    vm_compute; reflexivity.
Defined.

(** [sum_calories] adds its running total to the sum of the list. *)
Lemma sum_calories_acc xs t :
  sum_calories xs t = (let! s := sum_calories xs 0 in Ok (t + s)%Z).
Proof.
  revert t. induction xs as [|x xs IH]; intros t; cbn [sum_calories].
  - cbn. now rewrite Z.add_0_r.
  - destruct (ing_name x) as [name|e]; cbn [result_bind]; auto.
    destruct (val_get x "amount" (VInt 0)) as [a|e]; cbn [result_bind]; auto.
    destruct (py_float a) as [amount|e]; cbn [result_bind]; auto.
    destruct (first_calorie name calorie_map) as [c|].
    + destruct (py_int (float_mul_int c amount)) as [k|e]; cbn [result_bind]; auto.
      rewrite (IH (t + k)%Z), (IH (0 + k)%Z).
      destruct (sum_calories xs 0); cbn; auto. f_equal. lia.
    + apply IH.
Qed.

Lemma sum_calories_app xs ys t :
  sum_calories (xs ++ ys) t = (let! s := sum_calories xs t in sum_calories ys s).
Proof.
  revert t. induction xs as [|x xs IH]; intros t; cbn [sum_calories app]; auto.
  destruct (ing_name x) as [name|e]; cbn [result_bind]; auto.
  destruct (val_get x "amount" (VInt 0)) as [a|e]; cbn [result_bind]; auto.
  destruct (py_float a) as [amount|e]; cbn [result_bind]; auto.
  destruct (first_calorie name calorie_map); auto.
  destruct (py_int _); cbn [result_bind]; auto.
Qed.

(** X4. The calorie estimate of two ingredient lists put together is the
    sum of their estimates; if the first list raises, so does the whole,
    with the same exception, and likewise for the second. *)
Theorem estimate_calories_app xs ys :
  estimate_calories (VList (xs ++ ys)) =
  (let! a := estimate_calories (VList xs) in
   let! b := estimate_calories (VList ys) in
   Ok (a + b)%Z).
Proof.
  unfold estimate_calories. cbn [py_iter result_bind].
  rewrite sum_calories_app.
  destruct (sum_calories xs 0) as [a|e]; cbn [result_bind]; auto.
  apply sum_calories_acc.
Qed.

(** [str.lower()] neither produces nor removes a '.' or a ';'. *)
Lemma lower_char_eqb_punct (x : ascii) :
  Ascii.eqb "."%char (lower_char x) = Ascii.eqb "."%char x /\
  Ascii.eqb ";"%char (lower_char x) = Ascii.eqb ";"%char x.
Proof. destruct x as [[] [] [] [] [] [] [] []]; split; reflexivity. Qed.

Lemma count_char_lower_punct s :
  count_char "."%char (lower s) = count_char "."%char s /\
  count_char ";"%char (lower s) = count_char ";"%char s.
Proof.
  induction s as [|x s [IH1 IH2]]; cbn [lower count_char]; auto.
  destruct (lower_char_eqb_punct x) as [H1 H2]. rewrite H1, H2, IH1, IH2. auto.
Qed.

(** X5. The prep time depends only on the lowercased instructions: two
    instruction strings equal up to letter case give the same prep time,
    and the ingredients are never consulted. *)
Theorem estimate_prep_time_case_insensitive ingredients1 ingredients2 s t :
  lower s = lower t ->
  estimate_prep_time ingredients1 (VStr s) = estimate_prep_time ingredients2 (VStr t).
Proof.
  intros H. unfold estimate_prep_time.
  destruct (count_char_lower_punct s) as [Hs1 Hs2].
  destruct (count_char_lower_punct t) as [Ht1 Ht2].
  rewrite <- Hs1, <- Hs2, <- Ht1, <- Ht2, H. reflexivity.
Qed.

Lemma estimate_prep_time_case_insensitive_witness :
  lower "Muddle the mint; SHAKE. Strain." = lower "MUDDLE THE MINT; shake. strain." /\
  estimate_prep_time (VList []) (VStr "Muddle the mint; SHAKE. Strain.") =
  estimate_prep_time daiquiri_ingredients (VStr "MUDDLE THE MINT; shake. strain.").
Proof.
  split; [reflexivity|]. apply estimate_prep_time_case_insensitive. reflexivity.
Defined.

(* ------------------------------------------------------------------ *)
(** ** Further properties of the record enricher *)

Lemma in_if_app (b : bool) (l : list string) x t :
  In t (if b then (l ++ [x])%list else l) -> In t l \/ (b = true /\ t = x).
Proof. destruct b; auto. rewrite in_app_iff. simpl. intuition. Qed.

Lemma in_if_app_r (b : bool) (l : list string) x t :
  In t (if b then l else (l ++ [x])%list) -> In t l \/ (b = false /\ t = x).
Proof. destruct b; auto. rewrite in_app_iff. simpl. intuition. Qed.

Lemma in_if_single_r (b : bool) (x t : string) :
  In t (if b then [] else [x]) -> In t [] \/ (b = false /\ t = x).
Proof. destruct b; simpl; intuition. Qed.

(** X6. Every tag is non-empty, and it is the lowercased category, the
    lowercased glass, or one of the twelve fixed words (six spirits,
    three preparation styles, three complexity levels). *)
Theorem generate_tags_vocabulary sl cocktail tags :
  set_list_ok sl ->
  generate_tags sl cocktail = Ok tags ->
  forall t, In t tags ->
    t <> "" /\
    (str_lower (dget cocktail "category" (VStr "")) = Ok t \/
     str_lower (dget cocktail "glass" (VStr "")) = Ok t \/
     In t tag_vocabulary).
Proof.
  intros Hsl H. unfold generate_tags in H.
  destruct (str_lower (dget cocktail "category" (VStr ""))) as [category|e] eqn:Hcat;
    cbn [result_bind] in H; [|discriminate].
  destruct (str_lower (dget cocktail "glass" (VStr ""))) as [glass|e] eqn:Hgl;
    cbn [result_bind] in H; [|discriminate].
  destruct (identify_spirit_type (dget cocktail "ingredients" (VList []))) as [spirit|e] eqn:Hsp;
    cbn [result_bind] in H; [|discriminate].
  destruct (str_lower (dget cocktail "instructions" (VStr ""))) as [instructions|e];
    cbn [result_bind] in H; [|discriminate].
  destruct (calculate_complexity_score (dget cocktail "ingredients" (VList []))) as [c|e];
    cbn [result_bind] in H; [|discriminate].
  injection H as <-.
  apply identify_spirit_type_values in Hsp.
  intros t Hin.
  match goal with Hin : In t (sl ?L) |- _ => apply (proj2 (Hsl L)) in Hin end.
  assert (Hvoc : forall w, In w tag_vocabulary -> w <> "" /\
            (Ok category = Ok w \/ Ok glass = Ok w \/ In w tag_vocabulary)).
  { intros w Hw. split; [|auto].
    intros ->. unfold tag_vocabulary in Hw. simpl in Hw. intuition discriminate. }
  destruct (py_lt c 3); [|destruct (py_lt c 6)];
    (apply in_app_iff in Hin; destruct Hin as [Hin|Hin];
     [|apply Hvoc; simpl in Hin; unfold tag_vocabulary; simpl; intuition]);
    repeat (first [apply in_if_app in Hin | apply in_if_app_r in Hin
                   | apply in_if_single_r in Hin];
            destruct Hin as [Hin|[Hb Ht]]; [|subst t]);
    solve [ simpl in Hin; contradiction
          | apply Hvoc; unfold tag_vocabulary; simpl; tauto
          | apply String.eqb_neq in Hb; auto
          | apply String.eqb_neq in Hb; unfold spirit_values in Hsp; simpl in Hsp;
            apply Hvoc; unfold tag_vocabulary; simpl; intuition (subst; congruence) ].
Qed.

Lemma generate_tags_vocabulary_witness :
  set_list_ok set_list_last /\
  generate_tags set_list_last (("glass", VStr "Cocktail Glass") :: daiquiri) =
    Ok ["cocktail glass"; "rum"; "shaken"; "simple"] /\
  forall t, In t ["cocktail glass"; "rum"; "shaken"; "simple"] ->
    t <> "" /\
    (str_lower (dget (("glass", VStr "Cocktail Glass") :: daiquiri) "category" (VStr "")) = Ok t \/
     str_lower (dget (("glass", VStr "Cocktail Glass") :: daiquiri) "glass" (VStr "")) = Ok t \/
     In t tag_vocabulary).
Proof.
  split; [exact set_list_last_ok|]. split; [vm_compute; reflexivity|].
  apply (generate_tags_vocabulary set_list_last (("glass", VStr "Cocktail Glass") :: daiquiri));
    [exact set_list_last_ok|vm_compute; reflexivity].
Defined.

(** X7. A record with none of the fields ingredients, instructions,
    category and glass (whatever else it holds) is enriched with the
    defaults: 0 ingredients, complexity 0.0 (the rational 0/2), 0 words,
    prep time 3, not alcoholic, spirit type "non-alcoholic", 0 calories
    and the single tag "simple". *)
Theorem enrich_record_without_base_fields E sl st l d :
  nth_error (heap st) l = Some d ->
  dict_lookup "ingredients" d = None -> dict_lookup "instructions" d = None ->
  dict_lookup "category" d = None -> dict_lookup "glass" d = None ->
  derived_view (enrich_single_cocktail E sl l st) =
  Ok [Some (VInt 0); Some (VFloat (PFin (0 # 2))); Some (VInt 0); Some (VInt 3);
      Some (VBool false); Some (VStr "non-alcoholic"); Some (VInt 0);
      Some (VList (map VStr (sl ["simple"])))].
Proof.
  intros Hl Hi Hn Hc Hg. rewrite (derived_view_run E sl st l d Hl).
  unfold derive_fields, generate_tags, dget. rewrite Hi, Hn, Hc, Hg.
  reflexivity.
Qed.

Lemma enrich_record_without_base_fields_witness :
  derived_view (enrich_single_cocktail (sample_env VNone) set_list_last 0
                  (mkstate [nameless_record] 0 [] [])) =
  Ok [Some (VInt 0); Some (VFloat (PFin (0 # 2))); Some (VInt 0); Some (VInt 3);
      Some (VBool false); Some (VStr "non-alcoholic"); Some (VInt 0);
      Some (VList (map VStr (set_list_last ["simple"])))].
Proof. apply (enrich_record_without_base_fields _ _ _ _ nameless_record); reflexivity. Defined.

Lemma str_lower_ok x s : str_lower x = Ok s -> exists s', x = VStr s'.
Proof. destruct x; cbn; try discriminate. eauto. Qed.

Lemma word_count_ok x n : word_count x = Ok n -> exists s', x = VStr s'.
Proof. destruct x; cbn; try discriminate. eauto. Qed.

(** A successful derivation read instructions, category and glass as strings. *)
Lemma derive_fields_text_fields sl d fs :
  derive_fields sl d = Ok fs ->
  (exists s, dget d "instructions" (VStr "") = VStr s) /\
  (exists s, dget d "category" (VStr "") = VStr s) /\
  (exists s, dget d "glass" (VStr "") = VStr s).
Proof.
  unfold derive_fields.
  destruct (py_len _); cbn [result_bind]; [|discriminate].
  destruct (calculate_complexity_score _); cbn [result_bind]; [|discriminate].
  destruct (word_count (dget d "instructions" (VStr ""))) as [w|e] eqn:Hw;
    cbn [result_bind]; [|discriminate].
  destruct (estimate_prep_time _ _); cbn [result_bind]; [|discriminate].
  destruct (is_alcoholic _); cbn [result_bind]; [|discriminate].
  destruct (identify_spirit_type _); cbn [result_bind]; [|discriminate].
  destruct (estimate_calories _); cbn [result_bind]; [|discriminate].
  destruct (generate_tags sl d) as [tags|e] eqn:Ht; cbn [result_bind]; [|discriminate].
  intros _. apply word_count_ok in Hw. split; [exact Hw|].
  unfold generate_tags in Ht.
  destruct (str_lower (dget d "category" (VStr ""))) eqn:Hc; cbn [result_bind] in Ht;
    [|discriminate].
  destruct (str_lower (dget d "glass" (VStr ""))) eqn:Hg; cbn [result_bind] in Ht;
    [|discriminate].
  split; [eapply str_lower_ok; eauto|eapply str_lower_ok; eauto].
Qed.

(** X8. A record whose instructions, category or glass is present but not
    a string (for instance JSON null or a number) is never enriched: the
    enrichment raises, and the heap gains only the copy. *)
Theorem enrich_non_string_text_field E sl st l d k v :
  nth_error (heap st) l = Some d ->
  In k ["instructions"; "category"; "glass"] ->
  dict_lookup k d = Some v ->
  (forall s, v <> VStr s) ->
  exists st' e, enrich_single_cocktail E sl l st = (st', Exc e).
Proof.
  intros Hl Hk Hv Hns.
  destruct (enrich_single_cocktail_run E sl st l d Hl) as (x & t & Hrun & _).
  rewrite Hrun.
  destruct (derive_fields sl d) as [fs|e] eqn:Hfs; [|eauto].
  exfalso. apply derive_fields_text_fields in Hfs as (Hi & Hc & Hg).
  unfold dget in Hi, Hc, Hg.
  simpl in Hk. destruct Hk as [<-|[<-|[<-|[]]]]; rewrite Hv in *;
    [destruct Hi as [s Hs]|destruct Hc as [s Hs]|destruct Hg as [s Hs]]; exact (Hns s Hs).
Qed.

Lemma enrich_non_string_text_field_witness :
  exists st' e, enrich_single_cocktail (sample_env VNone) set_list_last 0
                  (mkstate [null_category_record] 0 [] []) = (st', Exc e).
Proof.
  apply (enrich_non_string_text_field (sample_env VNone) set_list_last
           (mkstate [null_category_record] 0 [] []) 0 null_category_record "category" VNone);
    [reflexivity|simpl; tauto|reflexivity|discriminate].
Defined.

(* ------------------------------------------------------------------ *)
(** ** Further properties of the handler *)

Create HintDb keeps.

Lemma keeps_logs_ret {A} (a : A) : keeps_logs (m_ret a).
Proof. intros st. auto. Qed.

Lemma keeps_logs_raise {A} e : keeps_logs (@raise A e).
Proof. intros st. auto. Qed.

Lemma keeps_logs_lift {A} (r : result A) : keeps_logs (lift r).
Proof. intros st. auto. Qed.

Lemma keeps_logs_load l : keeps_logs (load l).
Proof. intros st. unfold load. destruct (nth_error (heap st) l); auto. Qed.

Lemma keeps_logs_alloc d : keeps_logs (alloc d).
Proof. intros st. auto. Qed.

Lemma keeps_logs_setitem l k v : keeps_logs (setitem l k v).
Proof. intros st. unfold setitem. destruct (nth_error (heap st) l); auto. Qed.

Lemma keeps_logs_now_iso E : keeps_logs (now_iso E).
Proof. intros st. auto. Qed.

Lemma keeps_logs_bind {A B} (c : M A) (f : A -> M B) :
  keeps_logs c -> (forall a, keeps_logs (f a)) -> keeps_logs (m_bind c f).
Proof.
  intros Hc Hf st. unfold m_bind. specialize (Hc st).
  destruct (c st) as [st1 [a|e]]; cbn [fst] in *; auto.
  destruct (Hf a st1). intuition congruence.
Qed.

#[local] Hint Resolve keeps_logs_ret keeps_logs_raise keeps_logs_lift keeps_logs_load
  keeps_logs_alloc keeps_logs_setitem keeps_logs_now_iso : keeps.

Ltac keeps_logs_tac :=
  repeat (apply keeps_logs_bind; [auto with keeps|intros]); auto with keeps.

Lemma keeps_logs_mapM {A B} (f : A -> M B) xs :
  (forall x, keeps_logs (f x)) -> keeps_logs (mapM f xs).
Proof.
  intros Hf. induction xs as [|x xs IH]; cbn [mapM]; keeps_logs_tac.
Qed.

Lemma keeps_logs_getitem l k dflt : keeps_logs (getitem l k dflt).
Proof. unfold getitem. keeps_logs_tac. Qed.

#[local] Hint Resolve keeps_logs_getitem : keeps.

Lemma keeps_logs_enrich_single_cocktail E sl l : keeps_logs (enrich_single_cocktail E sl l).
Proof. unfold enrich_single_cocktail. keeps_logs_tac. Qed.

Lemma keeps_logs_enrich_cocktail_data E sl ib dp : keeps_logs (enrich_cocktail_data E sl ib dp).
Proof.
  unfold enrich_cocktail_data. apply keeps_logs_bind.
  - unfold read_from_s3. destruct (s3_objects E _ _); [|auto with keeps].
    apply keeps_logs_mapM. intros [] ; unfold materialize; keeps_logs_tac.
  - intros its. apply keeps_logs_mapM. intros [l|[]]; unfold enrich_item;
      solve [apply keeps_logs_enrich_single_cocktail | keeps_logs_tac].
Qed.

(** X9. When the input object is missing, the handler raises
    [ClientError] right after reading the clock: it writes nothing to S3
    or DynamoDB and enriches nothing. *)
Theorem lambda_handler_missing_input E sl ev st :
  s3_objects E (get_or (ev_input_bucket ev) "mocktailverse-processed-data")
    ("transformed/" ++ get_or (ev_date_partition ev) (clock_ymd E (ticks st)) ++
     "/transformed_cocktail_data.json") = None ->
  lambda_handler E sl ev st = (tick st, Exc ClientError).
Proof.
  intros H. unfold lambda_handler, enrich_cocktail_data, read_from_s3, m_bind, now_ymd.
  cbn beta iota zeta. rewrite H. reflexivity.
Qed.

Lemma lambda_handler_missing_input_witness :
  lambda_handler (sample_env (VList [])) set_list_last
    (mkevent None None (Some "2023/12/31")) empty_state = (tick empty_state, Exc ClientError).
Proof. apply lambda_handler_missing_input. reflexivity. Defined.

Lemma mapM_length {A B} (f : A -> M B) xs st st' ys :
  mapM f xs st = (st', Ok ys) -> length ys = length xs.
Proof.
  revert st ys. induction xs as [|x xs IH]; intros st ys H; cbn [mapM] in H.
  - unfold m_ret in H. injection H as _ <-. reflexivity.
  - unfold m_bind in H. destruct (f x st) as [st1 [y|e]]; [|now inversion H].
    destruct (mapM f xs st1) as [st2 [ys'|e]] eqn:H2; [|now inversion H].
    unfold m_ret in H. inversion H; subst. cbn. f_equal. eapply IH; eauto.
Qed.

(** The handler, stage by stage. *)
Lemma lambda_handler_stages E sl ev st :
  let input_bucket := get_or (ev_input_bucket ev) "mocktailverse-processed-data" in
  let output_bucket := get_or (ev_output_bucket ev) "mocktailverse-processed-data" in
  let date_partition := get_or (ev_date_partition ev) (clock_ymd E (ticks st)) in
  let output_key := "enriched/" ++ date_partition ++ "/enriched_cocktail_data.json" in
  lambda_handler E sl ev st =
  match enrich_cocktail_data E sl input_bucket date_partition (tick st) with
  | (st1, Ok enriched_data) =>
      match write_to_s3 E enriched_data output_bucket output_key st1 with
      | (st2, Ok _) =>
          match write_processing_summary E enriched_data date_partition st2 with
          | (st3, Ok _) =>
              (st3, Ok (mkresponse 200 "Data enrichment completed successfully"
                          (length enriched_data)
                          ("s3://" ++ output_bucket ++ "/" ++ output_key)))
          | (st3, Exc e) => (st3, Exc e)
          end
      | (st2, Exc e) => (st2, Exc e)
      end
  | (st1, Exc e) => (st1, Exc e)
  end.
Proof. reflexivity. Qed.

(** [write_to_s3] appends at most one object, holding one dict per
    record, and never touches DynamoDB. *)
Lemma write_to_s3_effect E data bucket key st :
  ddb_log (fst (write_to_s3 E data bucket key st)) = ddb_log st /\
  match write_to_s3 E data bucket key st with
  | (st', Ok _) => s3_put_ok E bucket key = true /\
      exists ds, s3_log st' = (s3_log st ++ [(bucket, key, ds)])%list /\ length ds = length data
  | (st', Exc _) => s3_log st' = s3_log st
  end.
Proof.
  unfold write_to_s3, m_bind.
  pose proof (keeps_logs_mapM load data keeps_logs_load st) as [K1 K2].
  destruct (mapM load data st) as [st1 [ds|e]] eqn:H; cbn [fst] in *; auto.
  destruct (s3_put_ok E bucket key) eqn:Hok; cbn; auto.
  rewrite K1, K2. split; auto. split; auto.
  exists ds. split; auto. eapply mapM_length; eauto.
Qed.

Ltac mapM_load_logs :=
  repeat match goal with
  | H : mapM load ?d ?s = (?s', _) |- _ =>
      let K := fresh "K" in let K' := fresh "K" in
      pose proof (keeps_logs_mapM load d keeps_logs_load s) as [K K'];
      rewrite H in K, K'; cbn [fst] in K, K'; clear H
  end.

(** [write_processing_summary] never writes to S3, and it adds at most
    one DynamoDB item, only when it returns normally. *)
Lemma write_processing_summary_effect E data dp st :
  s3_log (fst (write_processing_summary E data dp st)) = s3_log st /\
  (ddb_log (fst (write_processing_summary E data dp st)) = ddb_log st \/
   (snd (write_processing_summary E data dp st) = Ok tt /\
    exists item, ddb_log (fst (write_processing_summary E data dp st)) =
                 (ddb_log st ++ [item])%list)).
Proof.
  unfold write_processing_summary, catch_client_error, m_bind, now_iso, lift, put_item, m_ret.
  cbn [fst snd tick s3_log ddb_log ticks heap].
  repeat (match goal with
          | |- context [match ?t with _ => _ end] =>
              lazymatch t with
              | context [match _ with _ => _ end] => fail
              | _ => destruct t eqn:?
              end
          end; cbn [fst snd s3_log ddb_log] in *);
  mapM_load_logs; cbn [tick s3_log ddb_log] in *;
  (split; [congruence|]);
  first [ left; congruence
        | right; split; [reflexivity|]; eexists;
          apply (f_equal (fun h => (h ++ _)%list)); congruence ].
Qed.

Ltac stages E sl ev st :=
  let Hs := fresh "Hs" in
  pose proof (lambda_handler_stages E sl ev st) as Hs; cbv zeta in Hs; rewrite Hs; clear Hs.

(** X10. When the output object cannot be written, the invocation raises
    and writes nothing: no S3 object and no DynamoDB summary. *)
Theorem lambda_handler_output_write_fails E sl ev st :
  s3_put_ok E (get_or (ev_output_bucket ev) "mocktailverse-processed-data")
    ("enriched/" ++ get_or (ev_date_partition ev) (clock_ymd E (ticks st)) ++
     "/enriched_cocktail_data.json") = false ->
  (exists e, snd (lambda_handler E sl ev st) = Exc e) /\
  s3_log (fst (lambda_handler E sl ev st)) = s3_log st /\
  ddb_log (fst (lambda_handler E sl ev st)) = ddb_log st.
Proof.
  intros Hput. stages E sl ev st.
  match goal with |- context [enrich_cocktail_data E sl ?ib ?dp (tick st)] =>
    pose proof (keeps_logs_enrich_cocktail_data E sl ib dp (tick st)) as [K1 K2];
    destruct (enrich_cocktail_data E sl ib dp (tick st)) as [st1 [ed|e]];
    cbn [fst snd tick s3_log ddb_log] in *; [|eauto] end.
  match goal with |- context [write_to_s3 E ed ?ob ?key st1] =>
    pose proof (write_to_s3_effect E ed ob key st1) as [W1 W2];
    destruct (write_to_s3 E ed ob key st1) as [st2 [u|e]]; cbn [fst snd] in * end.
  - destruct W2 as [Hok _]. congruence.
  - split; eauto. split; congruence.
Qed.

Lemma lambda_handler_output_write_fails_witness :
  let E := mkenv (fun _ => "2024-01-01T00:00:00") (fun _ => "2024/01/01")
             (fun _ _ => Some (VList [VDict daiquiri])) (fun _ _ => false) None in
  (exists e, snd (lambda_handler E set_list_last sample_event empty_state) = Exc e) /\
  s3_log (fst (lambda_handler E set_list_last sample_event empty_state)) = [] /\
  ddb_log (fst (lambda_handler E set_list_last sample_event empty_state)) = [].
Proof. intros E. apply lambda_handler_output_write_fails. reflexivity. Defined.

Lemma enrich_cocktail_data_ddb E o sl ib dp :
  enrich_cocktail_data (with_ddb E o) sl ib dp = enrich_cocktail_data E sl ib dp.
Proof. reflexivity. Qed.

Lemma write_to_s3_ddb E o data bucket key :
  write_to_s3 (with_ddb E o) data bucket key = write_to_s3 E data bucket key.
Proof. reflexivity. Qed.

Ltac destruct_matches :=
  repeat (match goal with
          | |- context [match ?t with _ => _ end] =>
              lazymatch t with
              | context [match _ with _ => _ end] => fail
              | _ => destruct t eqn:?
              end
          end; cbn [fst snd] in *).

Lemma write_processing_summary_ddb E o1 o2 data dp st :
  put_outcome_swallowed o1 -> put_outcome_swallowed o2 ->
  snd (write_processing_summary (with_ddb E o1) data dp st) =
  snd (write_processing_summary (with_ddb E o2) data dp st).
Proof.
  intros [-> | ->] [-> | ->];
  unfold write_processing_summary, catch_client_error, m_bind, now_iso, lift, put_item, m_ret;
  cbn [with_ddb clock_iso ddb_put_error fst snd]; destruct_matches; reflexivity.
Qed.

Lemma mapM_load_exc ls st st' e :
  mapM load ls st = (st', Exc e) -> e = InvalidReference.
Proof.
  revert st. induction ls as [|l ls IH]; intros st H; cbn [mapM] in H; [inversion H|].
  unfold m_bind in H. unfold load at 1 in H. destruct (nth_error (heap st) l); [|congruence].
  unfold m_ret in H. destruct (mapM load ls st) as [s1 [x|e1]] eqn:H1; [discriminate|].
  injection H as -> <-. eauto.
Qed.

Lemma py_add_exc x y e : py_add x y = Exc e -> e = TypeError.
Proof.
  destruct x, y; cbn; try discriminate;
    repeat match goal with |- context [match ?t with _ => _ end] => destruct t end;
    congruence.
Qed.

Lemma py_sum_exc xs e : py_sum xs = Exc e -> e = TypeError.
Proof.
  unfold py_sum. assert (H : forall e', Ok (VInt 0) = @Exc val e' -> e' = TypeError)
    by discriminate.
  revert H. generalize (@Ok val (VInt 0)) as r. induction xs as [|x xs IH]; intros r Hr;
    cbn [fold_left]; [apply Hr|].
  apply IH. intros e'. destruct r as [a|e0]; cbn [result_bind]; [apply py_add_exc|apply Hr].
Qed.

Lemma py_truediv_exc x y e : py_truediv x y = Exc e -> e = TypeError \/ e = ZeroDivisionError.
Proof.
  unfold py_truediv.
  repeat match goal with |- context [match ?t with _ => _ end] => destruct t end;
    intros H; inversion H; auto.
Qed.

(** A summary that goes through with a working [put_item] raises the
    exception of a failing one when that exception is not a
    [ClientError]. *)
Lemma write_processing_summary_other_failure E e data dp st :
  e <> ClientError ->
  snd (write_processing_summary (with_ddb E None) data dp st) = Ok tt ->
  snd (write_processing_summary (with_ddb E (Some e)) data dp st) = Exc e.
Proof.
  intros He.
  unfold write_processing_summary, catch_client_error, m_bind, now_iso, lift, put_item, m_ret.
  cbn [with_ddb clock_iso ddb_put_error fst snd]; destruct_matches; try discriminate;
    try (destruct e; congruence);
    exfalso; subst;
    match goal with
    | H : mapM load _ _ = (_, Exc ClientError) |- _ => apply mapM_load_exc in H
    | H : py_sum _ = Exc ClientError |- _ => apply py_sum_exc in H
    | H : py_truediv _ _ = Exc ClientError |- _ => apply py_truediv_exc in H
    end; intuition discriminate.
Qed.

(** X11. A DynamoDB summary write that succeeds and one that fails with
    [ClientError] give the same invocation outcome (response or
    exception) and the same S3 writes: [except ClientError] swallows the
    failure. *)
Theorem lambda_handler_summary_failure_invisible E sl ev st o1 o2 :
  put_outcome_swallowed o1 -> put_outcome_swallowed o2 ->
  snd (lambda_handler (with_ddb E o1) sl ev st) =
  snd (lambda_handler (with_ddb E o2) sl ev st) /\
  s3_log (fst (lambda_handler (with_ddb E o1) sl ev st)) =
  s3_log (fst (lambda_handler (with_ddb E o2) sl ev st)).
Proof.
  intros Ho1 Ho2.
  stages (with_ddb E o1) sl ev st. stages (with_ddb E o2) sl ev st.
  rewrite !enrich_cocktail_data_ddb. cbn [clock_ymd with_ddb].
  match goal with |- context [enrich_cocktail_data E sl ?ib ?dp (tick st)] =>
    destruct (enrich_cocktail_data E sl ib dp (tick st)) as [st1 [ed|e]]; auto end.
  cbv beta iota. rewrite !write_to_s3_ddb.
  match goal with |- context [write_to_s3 E ed ?ob ?key st1] =>
    destruct (write_to_s3 E ed ob key st1) as [st2 [u|e]]; auto end.
  cbv beta iota.
  match goal with |- context [write_processing_summary _ ed ?dp st2] =>
    pose proof (write_processing_summary_ddb E o1 o2 ed dp st2 Ho1 Ho2) as Hr;
    pose proof (write_processing_summary_effect (with_ddb E o1) ed dp st2) as [S1 _];
    pose proof (write_processing_summary_effect (with_ddb E o2) ed dp st2) as [S2 _];
    destruct (write_processing_summary (with_ddb E o1) ed dp st2) as [st3 r3];
    destruct (write_processing_summary (with_ddb E o2) ed dp st2) as [st4 r4] end.
  cbn [fst snd] in *. subst r4. destruct r3; cbn; split; congruence.
Qed.

Lemma lambda_handler_summary_failure_invisible_witness :
  put_outcome_swallowed None /\ put_outcome_swallowed (Some ClientError) /\
  snd (lambda_handler (with_ddb (sample_env (VList [VDict daiquiri])) None)
         set_list_last sample_event empty_state) =
  snd (lambda_handler (with_ddb (sample_env (VList [VDict daiquiri])) (Some ClientError))
         set_list_last sample_event empty_state) /\
  s3_log (fst (lambda_handler (with_ddb (sample_env (VList [VDict daiquiri])) None)
                 set_list_last sample_event empty_state)) =
  s3_log (fst (lambda_handler (with_ddb (sample_env (VList [VDict daiquiri])) (Some ClientError))
                 set_list_last sample_event empty_state)).
Proof.
  split; [left; reflexivity|]. split; [right; reflexivity|].
  apply lambda_handler_summary_failure_invisible; [left|right]; reflexivity.
Defined.

(** X17. Any other failure of the DynamoDB summary write escapes: an
    invocation that succeeds when [put_item] works raises that exception
    instead, after the same S3 writes (the output object is already
    stored). *)
Theorem lambda_handler_summary_other_failure E sl ev st e resp :
  e <> ClientError ->
  snd (lambda_handler (with_ddb E None) sl ev st) = Ok resp ->
  snd (lambda_handler (with_ddb E (Some e)) sl ev st) = Exc e /\
  s3_log (fst (lambda_handler (with_ddb E (Some e)) sl ev st)) =
  s3_log (fst (lambda_handler (with_ddb E None) sl ev st)).
Proof.
  intros He.
  stages (with_ddb E None) sl ev st. stages (with_ddb E (Some e)) sl ev st.
  rewrite !enrich_cocktail_data_ddb. cbn [clock_ymd with_ddb].
  match goal with |- context [enrich_cocktail_data E sl ?ib ?dp (tick st)] =>
    destruct (enrich_cocktail_data E sl ib dp (tick st)) as [st1 [ed|e1]];
      [|discriminate] end.
  cbv beta iota. rewrite !write_to_s3_ddb.
  match goal with |- context [write_to_s3 E ed ?ob ?key st1] =>
    destruct (write_to_s3 E ed ob key st1) as [st2 [u|e2]]; [|discriminate] end.
  cbv beta iota.
  match goal with |- context [write_processing_summary _ ed ?dp st2] =>
    pose proof (write_processing_summary_other_failure E e ed dp st2 He) as Hr;
    pose proof (write_processing_summary_effect (with_ddb E None) ed dp st2) as [S1 _];
    pose proof (write_processing_summary_effect (with_ddb E (Some e)) ed dp st2) as [S2 _];
    destruct (write_processing_summary (with_ddb E None) ed dp st2) as [st3 [[]|e3]];
    destruct (write_processing_summary (with_ddb E (Some e)) ed dp st2) as [st4 r4] end;
  cbn [fst snd] in *; [|discriminate].
  intros _. rewrite (Hr eq_refl). cbn [fst snd]. split; [reflexivity|congruence].
Qed.

Lemma lambda_handler_summary_other_failure_witness :
  BotoCoreError <> ClientError /\
  snd (lambda_handler (with_ddb (sample_env (VList [VDict daiquiri])) (Some BotoCoreError))
         set_list_last sample_event empty_state) = Exc BotoCoreError /\
  s3_log (fst (lambda_handler (with_ddb (sample_env (VList [VDict daiquiri])) (Some BotoCoreError))
                 set_list_last sample_event empty_state)) =
  s3_log (fst (lambda_handler (with_ddb (sample_env (VList [VDict daiquiri])) None)
                 set_list_last sample_event empty_state)).
Proof.
  split; [discriminate|].
  eapply lambda_handler_summary_other_failure; [discriminate|].
  vm_compute. reflexivity.
Defined.

Lemma mapM_cons_ok {A B} (f : A -> M B) x xs st st' ys :
  mapM f (x :: xs) st = (st', Ok ys) ->
  exists st1 y ys', f x st = (st1, Ok y) /\ mapM f xs st1 = (st', Ok ys') /\ ys = y :: ys'.
Proof.
  cbn [mapM]. unfold m_bind. destruct (f x st) as [st1 [y|e]] eqn:H1; [|now inversion 1].
  destruct (mapM f xs st1) as [st2 [ys'|e]] eqn:H2; [|now inversion 1].
  unfold m_ret. inversion 1; subst. exists st1, y, ys'. auto.
Qed.

(** [materialize] turns exactly the dicts into heap references. *)
Lemma materialize_refs xs st st' its :
  mapM materialize xs st = (st', Ok its) ->
  Forall2 (fun x it => (exists l, it = IRef l) -> exists d, x = VDict d) xs its.
Proof.
  revert st its. induction xs as [|x xs IH]; intros st its H.
  - cbn in H. inversion H; subst. constructor.
  - apply mapM_cons_ok in H as (st1 & it & its' & Hx & Hxs & ->).
    constructor; [|eapply IH; eauto].
    destruct x; cbn in Hx; inversion Hx; subst; intros [l Hl]; try discriminate; eauto.
Qed.

(** Enriching a batch succeeds only if every element is a heap dict. *)
Lemma enrich_items_refs E sl its st st' ls :
  mapM (enrich_item E sl) its st = (st', Ok ls) -> Forall (fun it => exists l, it = IRef l) its.
Proof.
  revert st ls. induction its as [|it its IH]; intros st ls H; [constructor|].
  apply mapM_cons_ok in H as (st1 & y & ys & Hx & Hxs & _).
  constructor; [|eapply IH; eauto].
  destruct it as [l|[]]; eauto; cbn in Hx; discriminate.
Qed.

Lemma Forall2_Forall_l {A B} (R : A -> B -> Prop) (P : B -> Prop) (Q : A -> Prop) xs ys :
  Forall2 R xs ys -> Forall P ys -> (forall x y, R x y -> P y -> Q x) -> Forall Q xs.
Proof. induction 1; inversion 1; subst; constructor; eauto. Qed.

(** A successful [enrich_cocktail_data] read an object whose records are
    all dicts, and returns one location per record. *)
Lemma enrich_cocktail_data_ok E sl ib dp st st' ed :
  enrich_cocktail_data E sl ib dp st = (st', Ok ed) ->
  exists data,
    s3_objects E ib ("transformed/" ++ dp ++ "/transformed_cocktail_data.json") = Some data /\
    Forall (fun x => exists d, x = VDict d) (input_records data) /\
    length ed = length (input_records data).
Proof.
  unfold enrich_cocktail_data, read_from_s3, m_bind.
  destruct (s3_objects E ib _) as [data|]; [|now inversion 1].
  destruct (mapM materialize _ st) as [st1 [its|e]] eqn:H1; [|now inversion 1].
  intros H2. exists data. split; [reflexivity|].
  pose proof (materialize_refs _ _ _ _ H1) as HR.
  split.
  - eapply Forall2_Forall_l; [exact HR|eapply enrich_items_refs; eauto|]. eauto.
  - apply mapM_length in H1, H2. unfold input_records. destruct data; congruence.
Qed.

(** The stages of a successful invocation *)
Lemma lambda_handler_ok_inv E sl ev st resp :
  snd (lambda_handler E sl ev st) = Ok resp ->
  let input_bucket := get_or (ev_input_bucket ev) "mocktailverse-processed-data" in
  let output_bucket := get_or (ev_output_bucket ev) "mocktailverse-processed-data" in
  let date_partition := get_or (ev_date_partition ev) (clock_ymd E (ticks st)) in
  let output_key := "enriched/" ++ date_partition ++ "/enriched_cocktail_data.json" in
  exists st1 ed st2 st3,
    enrich_cocktail_data E sl input_bucket date_partition (tick st) = (st1, Ok ed) /\
    write_to_s3 E ed output_bucket output_key st1 = (st2, Ok tt) /\
    write_processing_summary E ed date_partition st2 = (st3, Ok tt) /\
    fst (lambda_handler E sl ev st) = st3 /\
    resp = mkresponse 200 "Data enrichment completed successfully" (length ed)
             ("s3://" ++ output_bucket ++ "/" ++ output_key).
Proof.
  stages E sl ev st. intros H. cbv zeta.
  match goal with H : context [enrich_cocktail_data E sl ?ib ?dp (tick st)] |- _ =>
    destruct (enrich_cocktail_data E sl ib dp (tick st)) as [st1 [ed|e]] eqn:H1;
    [|discriminate] end.
  match goal with H : context [write_to_s3 E ed ?ob ?key st1] |- _ =>
    destruct (write_to_s3 E ed ob key st1) as [st2 [[]|e]] eqn:H2; [|discriminate] end.
  match goal with H : context [write_processing_summary E ed ?dp st2] |- _ =>
    destruct (write_processing_summary E ed dp st2) as [st3 [[]|e]] eqn:H3;
    [|discriminate] end.
  cbn [snd] in H. injection H as <-.
  exists st1, ed, st2, st3. repeat split; auto.
Qed.

(** X12. A successful invocation read an existing input object whose
    records (the list's elements, or the object itself when it is not a
    list) are all JSON objects, and reports their number as
    [records_processed], with status code 200. *)
Theorem lambda_handler_success_input E sl ev st resp :
  snd (lambda_handler E sl ev st) = Ok resp ->
  exists data,
    s3_objects E (get_or (ev_input_bucket ev) "mocktailverse-processed-data")
      ("transformed/" ++ get_or (ev_date_partition ev) (clock_ymd E (ticks st)) ++
       "/transformed_cocktail_data.json") = Some data /\
    Forall (fun x => exists d, x = VDict d) (input_records data) /\
    records_processed resp = length (input_records data) /\
    status_code resp = 200%Z.
Proof.
  intros H. apply lambda_handler_ok_inv in H.
  destruct H as (st1 & ed & st2 & st3 & H1 & _ & _ & _ & ->).
  apply enrich_cocktail_data_ok in H1 as (data & Hd & Hall & Hlen).
  exists data. cbn. auto.
Qed.

Lemma lambda_handler_success_input_witness :
  exists resp,
    snd (lambda_handler (sample_env (VDict daiquiri)) set_list_last sample_event empty_state)
      = Ok resp /\
    exists data,
      s3_objects (sample_env (VDict daiquiri)) "mocktailverse-processed-data"
        ("transformed/" ++ "2024/01/01" ++ "/transformed_cocktail_data.json") = Some data /\
      Forall (fun x => exists d, x = VDict d) (input_records data) /\
      records_processed resp = length (input_records data) /\
      status_code resp = 200%Z.
Proof.
  eexists. split; [vm_compute; reflexivity|].
  apply (lambda_handler_success_input (sample_env (VDict daiquiri)) set_list_last
           sample_event empty_state).
  vm_compute. reflexivity.
Defined.

(** X13. A successful invocation writes exactly one S3 object, at
    [enriched/<date_partition>/enriched_cocktail_data.json] in the output
    bucket, holding one record per processed record; the response names
    that location; and at most one DynamoDB item is written. *)
Theorem lambda_handler_success_output E sl ev st resp :
  snd (lambda_handler E sl ev st) = Ok resp ->
  let output_bucket := get_or (ev_output_bucket ev) "mocktailverse-processed-data" in
  let output_key := "enriched/" ++ get_or (ev_date_partition ev) (clock_ymd E (ticks st)) ++
                    "/enriched_cocktail_data.json" in
  output_location resp = "s3://" ++ output_bucket ++ "/" ++ output_key /\
  (exists ds, s3_log (fst (lambda_handler E sl ev st)) =
                (s3_log st ++ [(output_bucket, output_key, ds)])%list /\
              length ds = records_processed resp) /\
  (ddb_log (fst (lambda_handler E sl ev st)) = ddb_log st \/
   exists item, ddb_log (fst (lambda_handler E sl ev st)) = (ddb_log st ++ [item])%list).
Proof.
  intros H. apply lambda_handler_ok_inv in H.
  destruct H as (st1 & ed & st2 & st3 & H1 & H2 & H3 & -> & ->). cbv zeta.
  match type of H1 with enrich_cocktail_data E sl ?ib ?dp (tick st) = _ =>
    pose proof (keeps_logs_enrich_cocktail_data E sl ib dp (tick st)) as [K1 K2] end.
  rewrite H1 in K1, K2. cbn [fst tick s3_log ddb_log] in K1, K2.
  match type of H2 with write_to_s3 E ed ?ob ?key st1 = _ =>
    pose proof (write_to_s3_effect E ed ob key st1) as [W1 W2] end.
  rewrite H2 in W1, W2. cbn [fst] in W1. destruct W2 as (_ & ds & Hds & Hlen).
  match type of H3 with write_processing_summary E ed ?dp st2 = _ =>
    pose proof (write_processing_summary_effect E ed dp st2) as [S1 S2] end.
  rewrite H3 in S1, S2. cbn [fst snd] in S1, S2.
  split; [reflexivity|]. split.
  - exists ds. split; [congruence|]. exact Hlen.
  - destruct S2 as [S2|[_ [item S2]]]; [left; congruence|right; exists item; congruence].
Qed.

Lemma lambda_handler_success_output_witness :
  exists resp,
    snd (lambda_handler (sample_env (VList [VDict daiquiri])) set_list_last sample_event
           empty_state) = Ok resp /\
    output_location resp =
      "s3://" ++ "mocktailverse-processed-data" ++ "/" ++
      ("enriched/" ++ "2024/01/01" ++ "/enriched_cocktail_data.json") /\
    (exists ds, s3_log (fst (lambda_handler (sample_env (VList [VDict daiquiri])) set_list_last
                              sample_event empty_state)) =
                  ([] ++ [("mocktailverse-processed-data",
                           ("enriched/" ++ "2024/01/01" ++ "/enriched_cocktail_data.json")%string, ds)])%list /\
                length ds = records_processed resp) /\
    (ddb_log (fst (lambda_handler (sample_env (VList [VDict daiquiri])) set_list_last
                     sample_event empty_state)) = [] \/
     exists item, ddb_log (fst (lambda_handler (sample_env (VList [VDict daiquiri])) set_list_last
                                  sample_event empty_state)) = ([] ++ [item])%list).
Proof.
  eexists. split; [vm_compute; reflexivity|].
  apply (lambda_handler_success_output (sample_env (VList [VDict daiquiri])) set_list_last
           sample_event empty_state).
  vm_compute. reflexivity.
Defined.

(** X14. A failed invocation never writes the DynamoDB summary, and it
    writes at most the one output object to S3. *)
Theorem lambda_handler_failure_writes E sl ev st e :
  snd (lambda_handler E sl ev st) = Exc e ->
  let output_bucket := get_or (ev_output_bucket ev) "mocktailverse-processed-data" in
  let output_key := "enriched/" ++ get_or (ev_date_partition ev) (clock_ymd E (ticks st)) ++
                    "/enriched_cocktail_data.json" in
  ddb_log (fst (lambda_handler E sl ev st)) = ddb_log st /\
  (s3_log (fst (lambda_handler E sl ev st)) = s3_log st \/
   exists ds, s3_log (fst (lambda_handler E sl ev st)) =
                (s3_log st ++ [(output_bucket, output_key, ds)])%list).
Proof.
  stages E sl ev st. intros H. cbv zeta.
  match goal with |- context [enrich_cocktail_data E sl ?ib ?dp (tick st)] =>
    pose proof (keeps_logs_enrich_cocktail_data E sl ib dp (tick st)) as [K1 K2];
    destruct (enrich_cocktail_data E sl ib dp (tick st)) as [st1 [ed|e1]];
    cbn [fst snd tick s3_log ddb_log] in *; [|auto] end.
  match goal with |- context [write_to_s3 E ed ?ob ?key st1] =>
    pose proof (write_to_s3_effect E ed ob key st1) as [W1 W2];
    destruct (write_to_s3 E ed ob key st1) as [st2 [u|e2]]; cbn [fst snd] in *;
    [|split; [congruence|left; congruence]] end.
  destruct W2 as (_ & ds & Hds & _).
  match goal with |- context [write_processing_summary E ed ?dp st2] =>
    pose proof (write_processing_summary_effect E ed dp st2) as [S1 S2];
    destruct (write_processing_summary E ed dp st2) as [st3 [u3|e3]]; cbn [fst snd] in * end.
  - discriminate.
  - destruct S2 as [S2|[S2 _]]; [|discriminate].
    split; [congruence|]. right. exists ds. congruence.
Qed.

Lemma lambda_handler_failure_writes_witness :
  snd (lambda_handler (sample_env (VList [])) set_list_last sample_event empty_state)
    = Exc ZeroDivisionError /\
  ddb_log (fst (lambda_handler (sample_env (VList [])) set_list_last sample_event empty_state))
    = [] /\
  (s3_log (fst (lambda_handler (sample_env (VList [])) set_list_last sample_event empty_state))
     = [] \/
   exists ds, s3_log (fst (lambda_handler (sample_env (VList [])) set_list_last sample_event
                             empty_state)) =
                ([] ++ [("mocktailverse-processed-data",
                         ("enriched/" ++ "2024/01/01" ++ "/enriched_cocktail_data.json")%string, ds)])%list).
Proof.
  split; [vm_compute; reflexivity|].
  apply (lambda_handler_failure_writes (sample_env (VList [])) set_list_last sample_event
           empty_state ZeroDivisionError).
  vm_compute. reflexivity.
Defined.

(* ------------------------------------------------------------------ *)
(** ** The records the batch writes *)

Create HintDb grows.

Lemma heap_grows_ret {A} (a : A) : heap_grows (m_ret a).
Proof. intros st. exists []. now rewrite app_nil_r. Qed.

Lemma heap_grows_raise {A} e : heap_grows (@raise A e).
Proof. intros st. exists []. now rewrite app_nil_r. Qed.

Lemma heap_grows_load l : heap_grows (load l).
Proof.
  intros st. exists []. rewrite app_nil_r. unfold load.
  destruct (nth_error (heap st) l); reflexivity.
Qed.

Lemma heap_grows_alloc d : heap_grows (alloc d).
Proof. intros st. exists [d]. reflexivity. Qed.

Lemma heap_grows_now_iso E : heap_grows (now_iso E).
Proof. intros st. exists []. now rewrite app_nil_r. Qed.

Lemma heap_grows_bind {A B} (c : M A) (f : A -> M B) :
  heap_grows c -> (forall a, heap_grows (f a)) -> heap_grows (m_bind c f).
Proof.
  intros Hc Hf st. unfold m_bind. destruct (Hc st) as [e1 H1].
  destruct (c st) as [st1 [a|e]]; cbn [fst] in *; [|eauto].
  destruct (Hf a st1) as [e2 H2]. exists (e1 ++ e2)%list. now rewrite H2, H1, app_assoc.
Qed.

#[local] Hint Resolve heap_grows_ret heap_grows_raise heap_grows_load heap_grows_alloc
  heap_grows_now_iso : grows.

Ltac heap_grows_tac :=
  repeat (apply heap_grows_bind; [auto with grows|intros]); auto with grows.

Lemma heap_grows_mapM {A B} (f : A -> M B) xs :
  (forall x, heap_grows (f x)) -> heap_grows (mapM f xs).
Proof. intros Hf. induction xs as [|x xs IH]; cbn [mapM]; heap_grows_tac. Qed.

Lemma enrich_single_cocktail_invalid E sl st l :
  nth_error (heap st) l = None -> enrich_single_cocktail E sl l st = (st, Exc InvalidReference).
Proof.
  intros H. unfold enrich_single_cocktail, m_bind at 1, load at 1. now rewrite H.
Qed.

Lemma heap_grows_enrich_single_cocktail E sl l : heap_grows (enrich_single_cocktail E sl l).
Proof.
  intros st. destruct (nth_error (heap st) l) as [d|] eqn:Hl.
  - destruct (enrich_single_cocktail_run E sl st l d Hl) as (x & t & Hrun & _).
    rewrite Hrun. exists [x]. reflexivity.
  - rewrite enrich_single_cocktail_invalid by exact Hl. exists []. now rewrite app_nil_r.
Qed.

Lemma heap_grows_enrich_item E sl it : heap_grows (enrich_item E sl it).
Proof.
  destruct it as [l|[]]; unfold enrich_item;
    solve [apply heap_grows_enrich_single_cocktail | heap_grows_tac].
Qed.

Lemma heap_grows_materialize v : heap_grows (materialize v).
Proof. destruct v; unfold materialize; heap_grows_tac. Qed.

Lemma nth_error_grows {A} (h ext : list A) l x :
  nth_error h l = Some x -> nth_error (h ++ ext)%list l = Some x.
Proof.
  intros H. rewrite nth_error_app1; auto. apply nth_error_Some. congruence.
Qed.

Lemma grows_nth {A} (m : M A) st st' r l d :
  heap_grows m -> m st = (st', r) -> nth_error (heap st) l = Some d -> nth_error (heap st') l = Some d.
Proof.
  intros Hg Hm Hl. destruct (Hg st) as [ext He]. rewrite Hm in He. cbn [fst] in He.
  rewrite He. now apply nth_error_grows.
Qed.

(** Each dict of the input list becomes a heap reference to it. *)
Lemma materialize_heap xs st st' its :
  mapM materialize xs st = (st', Ok its) ->
  Forall2 (fun x it => match x with
                       | VDict d => exists l, it = IRef l /\ nth_error (heap st') l = Some d
                       | _ => it = IVal x
                       end) xs its.
Proof.
  revert st its. induction xs as [|x xs IH]; intros st its H.
  - cbn in H. inversion H; subst. constructor.
  - apply mapM_cons_ok in H as (st1 & it & its' & Hx & Hxs & ->).
    constructor; [|eapply IH; eauto].
    destruct x; cbn in Hx; inversion Hx; subst; auto.
    eexists; split; [reflexivity|].
    eapply grows_nth; [apply (heap_grows_mapM materialize), heap_grows_materialize|exact Hxs|].
    cbn [heap set_heap]. apply nth_error_app_len.
Qed.

(** A successful batch enrichment: each element was a heap dict whose
    derivation succeeded, and each returned location holds its enriched
    copy. *)
Lemma enrich_items_heap E sl its st st' ls :
  mapM (enrich_item E sl) its st = (st', Ok ls) ->
  Forall2 (enriched_at_some E sl (heap st')) its ls.
Proof.
  revert st ls. induction its as [|it its IH]; intros st ls H.
  - cbn in H. inversion H; subst. constructor.
  - apply mapM_cons_ok in H as (st1 & l' & ls' & Hx & Hxs & ->).
    constructor; [|eapply IH; eauto].
    assert (Hg : heap_grows (mapM (enrich_item E sl) its))
      by (apply heap_grows_mapM, heap_grows_enrich_item).
    destruct it as [l|v]; [|destruct v; cbn in Hx; discriminate].
    cbn [enrich_item] in Hx.
    destruct (nth_error (heap st) l) as [d|] eqn:Hl;
      [|rewrite enrich_single_cocktail_invalid in Hx by exact Hl; discriminate].
    destruct (enrich_single_cocktail_run E sl st l d Hl) as (x & t & Hrun & Hxd).
    rewrite Hrun in Hx.
    destruct (derive_fields sl d) as [fs|e] eqn:Hfs; [|discriminate].
    injection Hx as <- <-. specialize (Hxd fs eq_refl).
    exists l, d, fs, (ticks st). split; [reflexivity|].
    split; [|split; [exact Hfs|]].
    + eapply grows_nth; [exact Hg|exact Hxs|]. cbn [heap]. now apply nth_error_grows.
    + eapply grows_nth; [exact Hg|exact Hxs|]. cbn [heap]. rewrite <- Hxd.
      apply nth_error_app_len.
Qed.

Lemma mapM_load_ok ls st st' ds :
  mapM load ls st = (st', Ok ds) -> st' = st /\ Forall2 (fun l d => nth_error (heap st) l = Some d) ls ds.
Proof.
  revert st ds. induction ls as [|l ls IH]; intros st ds H.
  - cbn in H. inversion H; subst. auto.
  - apply mapM_cons_ok in H as (st1 & d & ds' & Hx & Hxs & ->).
    unfold load in Hx. destruct (nth_error (heap st) l) eqn:Hl; inversion Hx; subst.
    apply IH in Hxs as [-> H]. auto.
Qed.

Lemma Forall2_trans {A B C} (R : A -> B -> Prop) (S : B -> C -> Prop) xs ys zs :
  Forall2 R xs ys -> Forall2 S ys zs -> Forall2 (fun x z => exists y, R x y /\ S y z) xs zs.
Proof.
  intros H1. revert zs. induction H1; intros zs H2; inversion H2; subst; constructor; eauto.
Qed.

(** The records a successful invocation read and the records it wrote *)
Lemma lambda_handler_ok_records E sl ev st resp :
  snd (lambda_handler E sl ev st) = Ok resp ->
  let output_bucket := get_or (ev_output_bucket ev) "mocktailverse-processed-data" in
  let date_partition := get_or (ev_date_partition ev) (clock_ymd E (ticks st)) in
  let output_key := "enriched/" ++ date_partition ++ "/enriched_cocktail_data.json" in
  exists data ds,
    s3_objects E (get_or (ev_input_bucket ev) "mocktailverse-processed-data")
      ("transformed/" ++ date_partition ++ "/transformed_cocktail_data.json") = Some data /\
    s3_log (fst (lambda_handler E sl ev st)) =
      (s3_log st ++ [(output_bucket, output_key, ds)])%list /\
    Forall2 (fun x d' => exists d fs n,
               x = VDict d /\ derive_fields sl d = Ok fs /\
               d' = enriched_dict (clock_iso E n) d fs)
            (input_records data) ds.
Proof.
  intros H. apply lambda_handler_ok_inv in H.
  destruct H as (st1 & ed & st2 & st3 & H1 & H2 & H3 & -> & _). cbv zeta.
  pose proof H1 as H1'.
  unfold enrich_cocktail_data, read_from_s3, m_bind in H1.
  destruct (s3_objects E _ _) as [data|] eqn:Hdata; [|discriminate].
  destruct (mapM materialize _ (tick st)) as [st0 [its|e]] eqn:Hmat; [|discriminate].
  match type of H1' with enrich_cocktail_data E sl ?ib ?dp (tick st) = _ =>
    pose proof (keeps_logs_enrich_cocktail_data E sl ib dp (tick st)) as [K1 _] end.
  rewrite H1' in K1. cbn [fst tick s3_log] in K1.
  pose proof (materialize_heap _ _ _ _ Hmat) as HM.
  pose proof (enrich_items_heap _ _ _ _ _ _ H1) as HE.
  assert (Hg : forall l d, nth_error (heap st0) l = Some d -> nth_error (heap st1) l = Some d)
    by (intros; eapply grows_nth; [apply (heap_grows_mapM (enrich_item E sl)), heap_grows_enrich_item|exact H1|auto]).
  unfold write_to_s3, m_bind in H2.
  destruct (mapM load ed st1) as [st1' [ds|e]] eqn:Hload; [|discriminate].
  apply mapM_load_ok in Hload as [-> HL].
  match type of H2 with (if ?b then _ else _) = _ => destruct b; [|discriminate] end.
  injection H2 as <-.
  match type of H3 with write_processing_summary E ed ?dp ?s = _ =>
    pose proof (write_processing_summary_effect E ed dp s) as [S1 _] end.
  rewrite H3 in S1. cbn [fst s3_log] in S1.
  exists data, ds. split; [reflexivity|]. split; [rewrite S1; cbn [s3_log]; now rewrite K1|].
  pose proof (Forall2_trans _ _ _ _ _ (Forall2_trans _ _ _ _ _ HM HE) HL) as HT.
  eapply Forall2_impl; [|exact HT]. cbv beta.
  intros x d' (l' & (it & Hx & (l & d & fs & n & -> & Hd & Hfs & Hl')) & Hd').
  destruct x; try discriminate.
  destruct Hx as (l0 & Hl0 & Hd0). injection Hl0 as <-.
  apply Hg in Hd0. rewrite Hd in Hd0. injection Hd0 as <-.
  exists d, fs, n. split; [reflexivity|]. split; [exact Hfs|]. congruence.
Qed.

(** X15. A successful invocation writes, in input order, one record per
    input record: the input dict with [enriched_at] set to a clock reading
    and the eight derived fields set to what the derivers compute from the
    input dict. *)
Theorem lambda_handler_output_records E sl ev st resp :
  snd (lambda_handler E sl ev st) = Ok resp ->
  let output_bucket := get_or (ev_output_bucket ev) "mocktailverse-processed-data" in
  let date_partition := get_or (ev_date_partition ev) (clock_ymd E (ticks st)) in
  let output_key := "enriched/" ++ date_partition ++ "/enriched_cocktail_data.json" in
  exists data ds,
    s3_objects E (get_or (ev_input_bucket ev) "mocktailverse-processed-data")
      ("transformed/" ++ date_partition ++ "/transformed_cocktail_data.json") = Some data /\
    s3_log (fst (lambda_handler E sl ev st)) =
      (s3_log st ++ [(output_bucket, output_key, ds)])%list /\
    Forall2 (fun x d' => exists d fs n,
               x = VDict d /\ derive_fields sl d = Ok fs /\
               d' = enriched_dict (clock_iso E n) d fs)
            (input_records data) ds.
Proof. apply lambda_handler_ok_records. Qed.

Lemma lambda_handler_output_records_witness :
  exists resp,
    snd (lambda_handler (sample_env (VList [VDict daiquiri])) set_list_last sample_event
           empty_state) = Ok resp /\
    exists data ds,
      s3_objects (sample_env (VList [VDict daiquiri])) "mocktailverse-processed-data"
        ("transformed/" ++ "2024/01/01" ++ "/transformed_cocktail_data.json") = Some data /\
      s3_log (fst (lambda_handler (sample_env (VList [VDict daiquiri])) set_list_last
                     sample_event empty_state)) =
        ([] ++ [("mocktailverse-processed-data",
                 ("enriched/" ++ "2024/01/01" ++ "/enriched_cocktail_data.json")%string, ds)])%list /\
      Forall2 (fun x d' => exists d fs n,
                 x = VDict d /\ derive_fields set_list_last d = Ok fs /\
                 d' = enriched_dict (clock_iso (sample_env (VList [VDict daiquiri])) n) d fs)
              (input_records data) ds.
Proof.
  eexists. split; [vm_compute; reflexivity|].
  eapply (lambda_handler_output_records (sample_env (VList [VDict daiquiri])) set_list_last
           sample_event empty_state).
  vm_compute. reflexivity.
Defined.

(* ------------------------------------------------------------------ *)
(** ** A well-formed batch goes through *)

Lemma py_add_num x y :
  float_of_num x <> None -> float_of_num y <> None ->
  exists v, py_add x y = Ok v /\ float_of_num v <> None.
Proof.
  destruct x, y; cbn; intros Hx Hy;
    try congruence; eexists; split; try reflexivity; cbn; discriminate.
Qed.

Lemma py_sum_num xs :
  Forall (fun x => float_of_num x <> None) xs ->
  exists v, py_sum xs = Ok v /\ float_of_num v <> None.
Proof.
  unfold py_sum. assert (H0 : float_of_num (VInt 0) <> None) by discriminate.
  revert H0. generalize (VInt 0) as a. induction xs as [|x xs IH]; intros a Ha Hxs; cbn [fold_left].
  - eauto.
  - inversion Hxs; subst. destruct (py_add_num a x Ha ltac:(assumption)) as (v & Hv & Hn).
    cbn [result_bind]. rewrite Hv. eauto.
Qed.

Lemma py_truediv_num x n :
  float_of_num x <> None -> (0 < n)%Z -> exists v, py_truediv x (VInt n) = Ok v.
Proof.
  intros Hx Hn. unfold py_truediv. destruct (float_of_num x) as [a|]; [|congruence].
  cbn [float_of_num].
  assert (Hq : Qeq_bool (inject_Z n) 0 = false).
  { apply not_true_iff_false. intros H. apply Qeq_bool_eq in H.
    unfold Qeq in H. cbn in H. lia. }
  rewrite Hq. destruct a; eauto.
Qed.

Lemma mapM_load_valid ls st :
  Forall (fun l => nth_error (heap st) l <> None) ls ->
  exists ds, mapM load ls st = (st, Ok ds) /\
             Forall2 (fun l d => nth_error (heap st) l = Some d) ls ds.
Proof.
  induction 1 as [|l ls Hl _ [ds [Hds Hf]]]; cbn [mapM].
  - exists []. split; [reflexivity|constructor].
  - destruct (nth_error (heap st) l) as [d|] eqn:Hd; [|congruence].
    exists (d :: ds). unfold m_bind, load at 1. rewrite Hd. cbn beta iota.
    rewrite Hds. split; [reflexivity|]. now constructor.
Qed.

(** The two fields the summary adds up are numbers in every enriched record. *)
Lemma enriched_dict_summary_fields sl now d fs :
  derive_fields sl d = Ok fs ->
  float_of_num (dget (enriched_dict now d fs) "ingredient_count" (VInt 0)) <> None /\
  float_of_num (dget (enriched_dict now d fs) "complexity_score" (VInt 0)) <> None.
Proof.
  unfold derive_fields.
  repeat match goal with
         | |- context [result_bind ?r _] => destruct r; cbn [result_bind]; [|discriminate]
         end.
  intros H. injection H as <-. unfold enriched_dict, dget.
  rewrite !dict_lookup_set_all. cbn. split; discriminate.
Qed.

Lemma write_processing_summary_ok E ed dp st :
  put_outcome_swallowed (ddb_put_error E) ->
  ed <> [] -> Forall (summary_ready (heap st)) ed ->
  exists st', write_processing_summary E ed dp st = (st', Ok tt).
Proof.
  intros Hsw Hne Hr.
  assert (Hv : Forall (fun l => nth_error (heap (tick st)) l <> None) ed).
  { eapply Forall_impl; [|exact Hr]. intros l (c & Hc & _). cbn. congruence. }
  destruct (mapM_load_valid ed (tick st) Hv) as (cs & Hcs & Hf).
  assert (Hn : forall k, k = "ingredient_count" \/ k = "complexity_score" ->
            Forall (fun x => float_of_num x <> None) (map (fun c => dget c k (VInt 0)) cs)).
  { intros k Hk. apply Forall_map.
    clear Hcs Hv Hne. induction Hf as [|l c ed cs Hc _ IH]; constructor;
      inversion Hr as [|? ? Hl Hr']; subst; auto.
    destruct Hl as (c' & Hc' & H1 & H2). cbn in Hc. rewrite Hc in Hc'. injection Hc' as <-.
    destruct Hk as [->| ->]; auto. }
  destruct (py_sum_num _ (Hn _ (or_introl eq_refl))) as (ti & Hti & _).
  destruct (py_sum_num _ (Hn _ (or_intror eq_refl))) as (tc & Htc & Htcn).
  destruct (py_truediv_num tc (Z.of_nat (length ed)) Htcn) as (avg & Havg).
  { destruct ed; [congruence|]. cbn [length]. lia. }
  unfold write_processing_summary, catch_client_error, m_bind, now_iso at 1.
  rewrite Hcs. cbn [lift]. rewrite Hti. rewrite Hcs. rewrite Htc. rewrite Havg.
  unfold put_item. destruct Hsw as [-> | ->]; eauto.
Qed.

Lemma mapM_materialize_ok xs st :
  exists st' its, mapM materialize xs st = (st', Ok its).
Proof.
  revert st. induction xs as [|x xs IH]; intros st; cbn [mapM].
  - eexists _, _. reflexivity.
  - unfold m_bind at 1.
    destruct (materialize x st) as [st1 [it|e]] eqn:Hx;
      [|destruct x; cbn in Hx; discriminate].
    destruct (IH st1) as (st2 & its & Hits). unfold m_bind. rewrite Hits.
    eexists _, _. reflexivity.
Qed.

Lemma enrich_items_ok E sl its st :
  Forall (enrichable sl (heap st)) its ->
  exists st' ls, mapM (enrich_item E sl) its st = (st', Ok ls).
Proof.
  revert st. induction its as [|it its IH]; intros st Hf; cbn [mapM].
  - eexists _, _. reflexivity.
  - inversion Hf as [|? ? (l & d & fs & -> & Hl & Hfs) Hf']; subst.
    destruct (enrich_single_cocktail_run E sl st l d Hl) as (x & t & Hrun & _).
    rewrite Hfs in Hrun. unfold m_bind at 1. cbn [enrich_item]. rewrite Hrun.
    destruct (IH (mkstate (heap st ++ [x]) t (s3_log st) (ddb_log st))) as (st2 & ls & Hls).
    { eapply Forall_impl; [|exact Hf']. intros it' (l' & d' & fs' & ? & Hl' & ?).
      exists l', d', fs'. split; [auto|]. split; [|auto]. cbn [heap].
      now apply nth_error_grows. }
    unfold m_bind. rewrite Hls. eexists _, _. reflexivity.
Qed.

Lemma Forall2_Forall_r {A B} (R : A -> B -> Prop) (P : A -> Prop) (Q : B -> Prop) xs ys :
  Forall2 R xs ys -> Forall P xs -> (forall x y, R x y -> P x -> Q y) -> Forall Q ys.
Proof. induction 1; inversion 1; subst; constructor; eauto. Qed.

(** X16. A batch that the pipeline can handle goes through: when the input
    object exists, holds at least one record, every record is a dict whose
    derived fields all compute, and the output object can be written, the
    invocation returns a response counting every record, whether the
    DynamoDB summary write succeeds or fails with [ClientError]. *)
Theorem lambda_handler_well_formed_batch E sl ev st data :
  let input_bucket := get_or (ev_input_bucket ev) "mocktailverse-processed-data" in
  let output_bucket := get_or (ev_output_bucket ev) "mocktailverse-processed-data" in
  let date_partition := get_or (ev_date_partition ev) (clock_ymd E (ticks st)) in
  let output_key := "enriched/" ++ date_partition ++ "/enriched_cocktail_data.json" in
  s3_objects E input_bucket
    ("transformed/" ++ date_partition ++ "/transformed_cocktail_data.json") = Some data ->
  input_records data <> [] ->
  Forall (fun x => exists d fs, x = VDict d /\ derive_fields sl d = Ok fs) (input_records data) ->
  s3_put_ok E output_bucket output_key = true ->
  put_outcome_swallowed (ddb_put_error E) ->
  exists resp, snd (lambda_handler E sl ev st) = Ok resp /\
               records_processed resp = length (input_records data).
Proof.
  intros ib ob dp okey Hdata Hne Hrec Hput Hsw.
  rewrite lambda_handler_stages. fold ib ob dp okey.
  unfold enrich_cocktail_data, read_from_s3, m_bind at 1. rewrite Hdata.
  destruct (mapM_materialize_ok (input_records data) (tick st)) as (st0 & its & Hmat).
  unfold input_records in Hmat. rewrite Hmat.
  pose proof (materialize_heap _ _ _ _ Hmat) as HM.
  assert (Hen : Forall (enrichable sl (heap st0)) its).
  { eapply Forall2_Forall_r; [exact HM|exact Hrec|]. cbv beta.
    intros x it Hx (d & fs & -> & Hfs). destruct Hx as (l & -> & Hl). exists l, d, fs. auto. }
  destruct (enrich_items_ok E sl its st0 Hen) as (st1 & ed & Hed). rewrite Hed.
  pose proof (enrich_items_heap _ _ _ _ _ _ Hed) as HE.
  assert (Hlen : length ed = length (input_records data))
    by (apply Forall2_length in HM, HE; unfold input_records; congruence).
  assert (Hready : Forall (summary_ready (heap st1)) ed).
  { eapply Forall2_Forall_r; [exact HE|apply Forall_forall; intros; exact I|].
    intros it l' (l & d & fs & n & _ & _ & Hfs & Hl') _.
    destruct (enriched_dict_summary_fields sl (clock_iso E n) d fs Hfs).
    exists (enriched_dict (clock_iso E n) d fs). auto. }
  assert (Hvalid : Forall (fun l => nth_error (heap st1) l <> None) ed).
  { eapply Forall_impl; [|exact Hready]. intros l (c & Hc & _). congruence. }
  destruct (mapM_load_valid ed st1 Hvalid) as (ds & Hds & _).
  unfold write_to_s3 at 1, m_bind at 1. rewrite Hds. rewrite Hput.
  destruct (write_processing_summary_ok E ed dp
              (mkstate (heap st1) (ticks st1) (s3_log st1 ++ [(ob, okey, ds)]) (ddb_log st1)))
    as (st3 & Hs); [exact Hsw| |exact Hready|].
  { destruct ed; [|discriminate]. cbn in Hlen. destruct (input_records data); cbn in Hlen;
      congruence. }
  rewrite Hs. eexists. split; [reflexivity|]. exact Hlen.
Qed.

Lemma lambda_handler_well_formed_batch_witness :
  exists resp,
    snd (lambda_handler (with_ddb (sample_env (VList [VDict daiquiri; VDict nameless_record]))
                           (Some ClientError))
           set_list_last sample_event empty_state) = Ok resp /\
    records_processed resp = length (input_records (VList [VDict daiquiri; VDict nameless_record])).
Proof.
  apply (lambda_handler_well_formed_batch
           (with_ddb (sample_env (VList [VDict daiquiri; VDict nameless_record]))
              (Some ClientError))
           set_list_last sample_event empty_state
           (VList [VDict daiquiri; VDict nameless_record])).
  - reflexivity.
  - discriminate.
  - cbn [input_records].
    repeat (apply Forall_cons; [eexists _, _; split; [reflexivity|vm_compute; reflexivity]|]).
    apply Forall_nil.
  - reflexivity.
  - right. reflexivity.
Defined.

(* ------------------------------------------------------------------ *)
(** ** C2: an unparsable amount fails the record and the invocation *)

(** C2 (corrected). An absent [amount] is read as 0, and the ingredient
    then contributes nothing. An amount that [float()] rejects (a
    non-numeric string, [None], a list or a dict) is not recovered: the
    [ValueError] or [TypeError] propagates out of [estimate_calories], the
    enrichment of the record raises, and, since the handler re-raises, an
    invocation whose input batch holds such a record fails. *)
Theorem estimate_calories_amount_default_or_raise :
  (forall d name xs t,
     dict_lookup "amount" d = None -> ing_name (VDict d) = Ok name ->
     sum_calories (VDict d :: xs) t = sum_calories xs t) /\
  (forall x name e xs t,
     ing_name x = Ok name -> ingredient_amount x = Exc e ->
     sum_calories (x :: xs) t = Exc e) /\
  (forall E sl st l d e,
     nth_error (heap st) l = Some d ->
     estimate_calories (dget d "ingredients" (VList [])) = Exc e ->
     exists st' e', enrich_single_cocktail E sl l st = (st', Exc e')) /\
  (forall E sl ev st data d e,
     s3_objects E (get_or (ev_input_bucket ev) "mocktailverse-processed-data")
       ("transformed/" ++ get_or (ev_date_partition ev) (clock_ymd E (ticks st)) ++
        "/transformed_cocktail_data.json") = Some data ->
     In (VDict d) (input_records data) ->
     estimate_calories (dget d "ingredients" (VList [])) = Exc e ->
     exists e', snd (lambda_handler E sl ev st) = Exc e').
Proof.
  split; [|split; [|split]].
  - intros d name xs t Hnone Hname. cbn [sum_calories]. rewrite Hname.
    cbn [result_bind val_get]. unfold dget. rewrite Hnone. cbn [py_float result_bind].
    destruct (first_calorie name calorie_map) as [c|]; auto.
    cbn. rewrite Z.mul_0_r, Z.quot_0_l by lia. now rewrite Z.add_0_r.
  - intros x name e xs t Hname Ha. unfold ingredient_amount in Ha.
    cbn [sum_calories]. rewrite Hname. cbn [result_bind].
    destruct (val_get x "amount" (VInt 0)); cbn [result_bind] in *; [|congruence].
    now rewrite Ha.
  - intros E sl st l d e Hl He.
    destruct (derive_fields_calories_exc sl d e He) as [e' He'].
    destruct (enrich_single_cocktail_run E sl st l d Hl) as (x & t & Hrun & _).
    rewrite He' in Hrun. eauto.
  - intros E sl ev st data d e Hdata Hin He.
    destruct (snd (lambda_handler E sl ev st)) as [resp|e'] eqn:Hr; [exfalso|eauto].
    destruct (lambda_handler_ok_records E sl ev st resp Hr) as (data' & ds & Hdata' & _ & HF).
    rewrite Hdata in Hdata'. injection Hdata' as <-.
    destruct (derive_fields_calories_exc sl d e He) as [e' He'].
    induction HF as [|x d' xs ds' Hx _ IH]; [contradiction|].
    destruct Hin as [Heq|Hin]; [subst x|auto].
    destruct Hx as (d0 & fs & n & Hd0 & Hfs & _). injection Hd0 as <-. congruence.
Qed.

Lemma estimate_calories_amount_default_or_raise_witness :
  sum_calories [VDict [("name", VStr "Soda")]; ingredient "Light Rum" (VInt 2)] 0 =
    sum_calories [ingredient "Light Rum" (VInt 2)] 0 /\
  sum_calories [ingredient "Light Rum" (VStr "a splash")] 0 = Exc ValueError /\
  (exists st' e', enrich_single_cocktail (sample_env (VList [])) set_list_last 0
                    (mkstate [splash_recipe] 0 [] []) = (st', Exc e')) /\
  exists e', snd (lambda_handler (sample_env (VList [VDict daiquiri; VDict splash_recipe]))
                    set_list_last sample_event empty_state) = Exc e'.
Proof.
  destruct estimate_calories_amount_default_or_raise as (Ha & Hb & Hc & Hd).
  split; [apply (Ha [("name", VStr "Soda")] "soda"); reflexivity|].
  split; [apply (Hb (ingredient "Light Rum" (VStr "a splash")) "light rum"); reflexivity|].
  split; [apply (Hc (sample_env (VList [])) set_list_last (mkstate [splash_recipe] 0 [] []) 0
                  splash_recipe ValueError); reflexivity|].
  apply (Hd (sample_env (VList [VDict daiquiri; VDict splash_recipe])) set_list_last
           sample_event empty_state (VList [VDict daiquiri; VDict splash_recipe])
           splash_recipe ValueError).
  - reflexivity.
  - right. left. reflexivity.
  - vm_compute. reflexivity.
Defined.
